(** * smartctl_exporter: the refresh/cache core of [readjson.go]

    A shallow embedding of [readjson.go] and the properties its
    specification states about it.  The Go code is translated function by
    function, keeping its names.  What the file does not own is kept
    explicit:

    - the [gjson] library is an interface ([gjson.Interface]) with the
      handful of laws the proofs rely on ([gjson.Laws]);
    - the operating system (process execution, the clock, the file system)
      supplies inputs that are passed to the functions as arguments;
    - the logger is a writer: every function returns the records it emits,
      in order;
    - [sync.Map] is a finite map, and the goroutines of
      [refreshAllDevices] are a labelled transition system. *)

From Stdlib Require Import ZArith Lia Ascii String DecimalString.
From stdpp Require Import base tactics option list strings countable gmap fin_maps.

Set Warnings "-register-all".

Local Open Scope string_scope.
Local Open Scope list_scope.
Local Open Scope Z_scope.

(** ** Devices *)

(** Modelled from the spec: the declaration of [Device] is not in
    [readjson.go].  Section 3 describes it as an immutable identity made
    of a name/path and a type tag, compared by value; the code reads the
    fields [device.Name] and [device.Type]. *)
Record Device := mkDevice { Name : string; Type_ : string }.

#[global] Instance Device_eq_dec : EqDecision Device.
Proof. solve_decision. Defined.

#[global] Instance Device_countable : Countable Device.
Proof.
  refine (inj_countable' (λ d, (Name d, Type_ d)) (λ p, mkDevice p.1 p.2) _).
  by intros [??].
Defined.

(** ** Time *)

(** [time.Time] and [time.Duration] as integers (nanoseconds). *)
Definition Time := Z.
Definition Duration := Z.

(** [t.Add(d)] and [t.After(u)]. *)
Definition Time_Add (t : Time) (d : Duration) : Time := t + d.
Definition Time_After (t u : Time) : bool := u <? t.

(** The zero [time.Time{}]: January 1, year 1, 00:00:00 UTC. *)
Definition zeroTime : Time := -62135596800000000000.

(** ** Process execution *)

(** The [error] returned by [exec.Cmd.Output]: [nil], an
    [*exec.ExitError] carrying the exit code of a process that ran and
    did not succeed, or any other error (the process could not be
    started: binary missing, permission denied). *)
Inductive error :=
| nil_error
| ExitError (ExitCode : Z)
| OtherError (reason : string).

(** ** Logging *)

Inductive Level := LevelDebug | LevelWarn | LevelError.

Inductive Attr :=
| AString (s : string)
| ADevice (d : Device)
| AErr (e : error)
| AInt (n : Z)
| ADuration (d : Duration).

Record LogRecord := mkLog {
  level : Level;
  message : string;
  attrs : list (string * Attr)
}.

(** What a function hands to its [*slog.Logger], in program order. *)
Definition Logged (A : Type) : Type := A * list LogRecord.

Definition ret {A} (a : A) : Logged A := (a, []).

Definition bind {A B} (m : Logged A) (k : A → Logged B) : Logged B :=
  let r := k m.1 in (r.1, m.2 ++ r.2).

Notation "x ←ₗ m ;; k" := (bind m (λ x, k))
  (at level 100, m at next level, right associativity).
Notation "m ;;ₗ k" := (bind m (λ _, k))
  (at level 100, right associativity).

Module logger.
Definition Debug (msg : string) (args : list (string * Attr)) : Logged unit :=
  (tt, [mkLog LevelDebug msg args]).
Definition Warn (msg : string) (args : list (string * Attr)) : Logged unit :=
  (tt, [mkLog LevelWarn msg args]).
Definition Error (msg : string) (args : list (string * Attr)) : Logged unit :=
  (tt, [mkLog LevelError msg args]).
End logger.

Definition when (c : bool) (m : Logged unit) : Logged unit :=
  if c then m else ret tt.

(** ** [resultCodeIsOk]: the smartctl return code *)

(** The messages of the eight conditions, bit 0 to bit 7. *)
Definition msg_bit0 := "Command line did not parse".
Definition msg_bit1 := "Device open failed, device did not return an IDENTIFY DEVICE structure, or device is in a low-power mode".
Definition msg_bit2 := "Some SMART or other ATA command to the disk failed, or there was a checksum error in a SMART data structure".
Definition msg_bit3 := "SMART status check returned 'DISK FAILING'".
Definition msg_bit4 := "We found prefail Attributes <= threshold".
Definition msg_bit5 := "SMART status check returned 'DISK OK' but we found that some (usage or prefail) Attributes have been <= threshold at some time in the past".
Definition msg_bit6 := "The device error log contains records of errors".
Definition msg_bit7 := "The device self-test log contains records of errors. [ATA only] Failed self-tests outdated by a newer successful extended self-test are ignored".

(** [(b & (1 << k)) != 0] on an [int64] held in [Z] (two's complement
    for negative values, as in Go). *)
Definition flag (b : Z) (k : Z) : bool := negb (Z.land b (Z.shiftl 1 k) =? 0).

Definition resultCodeIsOk (device : Device) (SMARTCtlResult : Z) : Logged bool :=
  let result := true in
  if 0 <? SMARTCtlResult then
    let b := SMARTCtlResult in
    result ←ₗ (if flag b 0
               then logger.Error msg_bit0 [("device", ADevice device)] ;;ₗ ret false
               else ret result) ;;
    result ←ₗ (if flag b 1
               then logger.Error msg_bit1 [("device", ADevice device)] ;;ₗ ret false
               else ret result) ;;
    when (flag b 2) (logger.Warn msg_bit2 [("device", ADevice device)]) ;;ₗ
    when (flag b 3) (logger.Warn msg_bit3 [("device", ADevice device)]) ;;ₗ
    when (flag b 4) (logger.Warn msg_bit4 [("device", ADevice device)]) ;;ₗ
    when (flag b 5) (logger.Warn msg_bit5 [("device", ADevice device)]) ;;ₗ
    when (flag b 6) (logger.Warn msg_bit6 [("device", ADevice device)]) ;;ₗ
    when (flag b 7) (logger.Warn msg_bit7 [("device", ADevice device)]) ;;ₗ
    ret result
  else ret result.

(** The table of section 4.1 of the specification, in its words: the
    bit, the severity at which its condition is reported, and the
    message.  [report] is what the table asks to be logged for a code:
    one record for every bit that is set, from bit 0 up. *)
Definition status_table : list (Z * Level * string) :=
  [(0, LevelError, msg_bit0); (1, LevelError, msg_bit1);
   (2, LevelWarn, msg_bit2); (3, LevelWarn, msg_bit3);
   (4, LevelWarn, msg_bit4); (5, LevelWarn, msg_bit5);
   (6, LevelWarn, msg_bit6); (7, LevelWarn, msg_bit7)].

Definition report (device : Device) (code : Z) : list LogRecord :=
  flat_map (λ row : Z * Level * string,
              if Z.testbit code row.1.1
              then [mkLog row.1.2 row.2 [("device", ADevice device)]]
              else [])
           status_table.

(** ** The [strings] and [fmt] functions the file calls

    Go strings are byte sequences, and so are Rocq's. *)

(** [strings.HasPrefix(s, prefix)]. *)
Fixpoint strings_HasPrefix (s prefix : string) {struct prefix} : bool :=
  match prefix, s with
  | EmptyString, _ => true
  | String p prefix', String c s' => Ascii.eqb p c && strings_HasPrefix s' prefix'
  | String _ _, EmptyString => false
  end.

(** [s[n:]] for [n <= len(s)]. *)
Fixpoint string_from (n : nat) (s : string) {struct n} : string :=
  match n, s with
  | S n', String _ s' => string_from n' s'
  | _, _ => s
  end.

(** [strings.TrimPrefix(s, prefix)]: [s] without the leading [prefix],
    and [s] itself when it does not start with [prefix]. *)
Definition strings_TrimPrefix (s prefix : string) : string :=
  if strings_HasPrefix s prefix then string_from (String.length prefix) s else s.

(** [strings.Split(s, sep)] for a separator of one byte: the pieces
    between the separators, at least one piece. *)
Fixpoint strings_Split (s : string) (sep : ascii) : list string :=
  match s with
  | EmptyString => [EmptyString]
  | String c s' =>
      if Ascii.eqb c sep then EmptyString :: strings_Split s' sep
      else match strings_Split s' sep with
           | piece :: pieces => String c piece :: pieces
           | [] => [String c EmptyString]
           end
  end.

(** [strings.Join(elems, sep)]. *)
Definition strings_Join (elems : list string) (sep : string) : string :=
  String.concat sep elems.

(** [strings.Contains(s, c)] for one byte [c]. *)
Fixpoint string_elem (c : ascii) (s : string) : bool :=
  match s with
  | EmptyString => false
  | String c' s' => Ascii.eqb c' c || string_elem c s'
  end.

(** ** The [gjson] interface

    [github.com/tidwall/gjson] is an external library.  The program uses
    the functions [gjson.Valid] and [gjson.Parse], the zero value
    [gjson.Result{}] and the methods [Get], [Int], [String], [Exists] and
    [Array] of a [gjson.Result]; [Raw] is the field of a result that
    holds its JSON text. *)
Module gjson.
Class Interface := {
  Result : Type;
  zero : Result;
  Valid : string → bool;
  Parse : string → Result;
  Get : Result → string → Result;
  Int : Result → Z;
  String : Result → string;
  Exists : Result → bool;
  Array : Result → list Result;
  Raw : Result → string;
}.

(** The documented behaviour of the library that the proofs use. *)
Class Laws `{Interface} : Prop := {
  (** the empty text is not valid JSON, the empty object is *)
  Valid_empty : Valid EmptyString = false;
  Valid_object : Valid "{}" = true;
  (** a valid text parses to a result that exists; the zero result
      does not exist *)
  Exists_Parse s : Valid s = true → Exists (Parse s) = true;
  Exists_zero : Exists zero = false;
  (** the empty object has no member [smartctl] *)
  Get_object_exit_status :
    Exists (Get (Parse "{}") "smartctl.exit_status") = false;
  Get_object_messages :
    Exists (Get (Parse "{}") "smartctl.messages") = false;
  (** a result that does not exist reads as 0 and as no elements *)
  Int_missing r : Exists r = false → Int r = 0;
  Array_missing r : Exists r = false → Array r = [];
  (** the text held by the result of parsing valid JSON is valid JSON,
      and parses to a result that holds the same text *)
  Valid_Raw s : Valid s = true → Valid (Raw (Parse s)) = true;
  Raw_Parse_Raw s : Valid s = true → Raw (Parse (Raw (Parse s))) = Raw (Parse s);
}.
End gjson.

(** ** The cache *)

(** [JSONCache] caching json *)
Record JSONCache `{gjson.Interface} := mkJSONCache {
  JSON : gjson.Result;
  LastCollect : Time
}.
Arguments mkJSONCache {_} _ _.
Arguments JSON {_} _.
Arguments LastCollect {_} _.

(** The keys of the [sync.Map] are values of any type: the program
    stores under the empty string once, in [init], and under [Device]
    values everywhere else.  A string never equals a [Device]. *)
Inductive Key :=
| KString (s : string)
| KDevice (d : Device).

#[global] Instance Key_eq_dec : EqDecision Key.
Proof. solve_decision. Defined.

#[global] Instance Key_countable : Countable Key.
Proof.
  refine (inj_countable'
            (λ k, match k with KString s => inl s | KDevice d => inr d end)
            (λ x, match x with inl s => KString s | inr d => KDevice d end) _).
  by intros [].
Defined.

(** Modelled from the spec: the command-line flags are declared outside
    [readjson.go]; the file reads [*smartctlPath],
    [*smartctlPowerModeCheck], [*smartctlScanDeviceTypes],
    [*smartctlFakeData] (the fake/offline data mode) and
    [*smartctlInterval] (the staleness interval). *)
Record Flags := mkFlags {
  smartctlPath : string;
  smartctlPowerModeCheck : string;
  smartctlScanDeviceTypes : list string;
  smartctlFakeData : bool;
  smartctlInterval : Duration
}.

(** What the operating system answers: [exec.Command(name,
    args...).Output()] and [os.ReadFile(name)], each a pair of the bytes
    and the error, as in Go. *)
Record OS := mkOS {
  Output : string → list string → string * error;
  ReadFile : string → string * error
}.

(** The three readings of [time.Now()] in one run of [readSMARTctl]: at
    the start, in [time.Since(start)], and for [LastCollect]. *)
Record Clock := mkClock {
  at_start : Time;
  at_log : Time;
  at_store : Time
}.

Definition is_nil (e : error) : bool :=
  match e with nil_error => true | _ => false end.

Section Program.
Context `{gjson.Interface}.

Abbreviation Cache := (gmap Key JSONCache).

(** [func init()] stores [JSONCache{}] under the empty string. *)
Definition init (jsonCache : Cache) : Cache :=
  <[KString EmptyString := mkJSONCache gjson.zero zeroTime]> jsonCache.

(** Parse json to gjson object *)
Definition parseJSON (data : string) : gjson.Result :=
  if negb (gjson.Valid data) then gjson.Parse "{}"
  else gjson.Parse data.

(** Reading fake smartctl json *)
Definition readFakeSMARTctl (os : OS) (device : Device) : Logged gjson.Result :=
  let s := strings_Split (Name device) "/" in
  let filename := "debug/" +:+ default EmptyString (last s) +:+ ".json" in
  logger.Debug "Read fake S.M.A.R.T. data from json" [("filename", AString filename)] ;;ₗ
  let '(jsonFile, err) := ReadFile os filename in
  if negb (is_nil err) then
    logger.Error "Fake S.M.A.R.T. data reading error" [("err", AErr err)] ;;ₗ
    ret (parseJSON "{}")
  else ret (parseJSON jsonFile).

(** Check json: the loop over [messages.Array()], which returns at the
    first message of severity ["error"]. *)
Fixpoint jsonIsOk_range (messages : list gjson.Result) : Logged bool :=
  match messages with
  | [] => ret true
  | message :: rest =>
      if String.eqb (gjson.String (gjson.Get message "severity")) "error" then
        logger.Error (gjson.String (gjson.Get message "string")) [] ;;ₗ
        ret false
      else jsonIsOk_range rest
  end.

Definition jsonIsOk (json : gjson.Result) : Logged bool :=
  let messages := gjson.Get json "smartctl.messages" in
  if gjson.Exists messages then jsonIsOk_range (gjson.Array messages)
  else ret true.

(** The arguments of the per-device invocation. *)
Definition smartctlArgs (f : Flags) (device : Device) : list string :=
  ["--json"; "--info"; "--health"; "--attributes";
   "--tolerance=verypermissive";
   "--nocheck=" +:+ smartctlPowerModeCheck f;
   "--format=brief"; "--log=error";
   "--device=" +:+ Type_ device; Name device].

(** The artifact of smartmontools before 7.3 that is cut off the
    output. *)
Definition artifact : string := "  Pending defect count:".

(** Get json from smartctl and parse it.  The function returns the
    cache after the call; [defer wg.Done()] is the last thing it does
    and belongs to the goroutine step below. *)
Definition readSMARTctl (f : Flags) (os : OS) (clock : Clock)
    (device : Device) (jsonCache : Cache) : Logged Cache :=
  let start := at_start clock in
  logger.Debug "Calling smartctl with args"
    [("args", AString (strings_Join (smartctlArgs f device) " "))] ;;ₗ
  let '(out, err) := Output os (smartctlPath f) (smartctlArgs f device) in
  when (negb (is_nil err))
    (logger.Warn "S.M.A.R.T. output reading"
       [("err", AErr err); ("device", ADevice device)]) ;;ₗ
  let cleaned_out := strings_TrimPrefix out artifact in
  let json := parseJSON cleaned_out in
  rcOk ←ₗ resultCodeIsOk device (gjson.Int (gjson.Get json "smartctl.exit_status")) ;;
  jsonOk ←ₗ jsonIsOk json ;;
  logger.Debug "Collected S.M.A.R.T. json data"
    [("device", ADevice device); ("duration", ADuration (at_log clock - start))] ;;ₗ
  if rcOk && jsonOk then
    ret (<[KDevice device := mkJSONCache json (at_store clock)]> jsonCache)
  else ret jsonCache.

(** Names for what one run of [readSMARTctl] computes on the way: its
    variable [json], the code it hands to [resultCodeIsOk], and the
    messages [jsonIsOk] ranges over. *)
Definition collected (f : Flags) (os : OS) (device : Device) : gjson.Result :=
  parseJSON
    (strings_TrimPrefix (Output os (smartctlPath f) (smartctlArgs f device)).1 artifact).

Definition exit_status (json : gjson.Result) : Z :=
  gjson.Int (gjson.Get json "smartctl.exit_status").

Definition messages (json : gjson.Result) : list gjson.Result :=
  gjson.Array (gjson.Get json "smartctl.messages").

(** [message] is an entry of the message list whose severity is the
    string ["error"]. *)
Definition error_message (json message : gjson.Result) : Prop :=
  message ∈ messages json
  ∧ gjson.String (gjson.Get message "severity") = "error".

(** [message] is the first entry of the message list whose severity is
    the string ["error"]. *)
Definition first_error_message (json message : gjson.Result) : Prop :=
  ∃ before after,
    messages json = before ++ message :: after
    ∧ (∀ m, m ∈ before → gjson.String (gjson.Get m "severity") ≠ "error")
    ∧ gjson.String (gjson.Get message "severity") = "error".

(** The test [rcOk && jsonOk] of one run of [readSMARTctl]. *)
Definition admitted (f : Flags) (os : OS) (device : Device) : bool :=
  (resultCodeIsOk device (exit_status (collected f os device))).1
  && (jsonIsOk (collected f os device)).1.

(** The arguments of the scan: ["--device", d] for every configured
    type. *)
Definition scanArgs (f : Flags) : list string :=
  fold_left (λ scanArgs d, scanArgs ++ ["--device"; d])
    (smartctlScanDeviceTypes f) ["--json"; "--scan"].

Definition readSMARTctlDevices (f : Flags) (os : OS) : Logged gjson.Result :=
  logger.Debug "Scanning for devices" [] ;;ₗ
  let '(out, err) := Output os (smartctlPath f) (scanArgs f) in
  match err with
  | ExitError code =>
      logger.Debug "Exit Status" [("exit_code", AInt code)] ;;ₗ
      (* The smartctl command returns 2 if devices are sleeping, ignore this error. *)
      if negb (code =? 2) then
        logger.Warn "S.M.A.R.T. output reading error" [("err", AErr err)] ;;ₗ
        ret gjson.zero
      else ret (parseJSON out)
  | OtherError _ =>
      logger.Warn "S.M.A.R.T. output reading error" [("err", AErr err)] ;;ₗ
      ret gjson.zero
  | nil_error => ret (parseJSON out)
  end.

(** The test of the loop of [refreshAllDevices]:
    [!cacheOk || time.Now().After(cacheValue.LastCollect.Add(interval))],
    where [interval] is the flag [smartctlInterval]. *)
Definition stale (f : Flags) (jsonCache : Cache) (device : Device) (now : Time) : bool :=
  match jsonCache !! KDevice device with
  | None => true
  | Some cacheValue =>
      Time_After now (Time_Add (LastCollect cacheValue) (smartctlInterval f))
  end.

Definition readData (f : Flags) (os : OS) (device : Device) (jsonCache : Cache)
    : Logged gjson.Result :=
  if smartctlFakeData f then readFakeSMARTctl os device
  else
    match jsonCache !! KDevice device with
    | None =>
        logger.Warn "device not found" [("device", ADevice device)] ;;ₗ
        ret gjson.zero
    | Some cacheValue => ret (JSON cacheValue)
    end.
End Program.

(** ** [refreshAllDevices]: the loop, its goroutines and the wait group

    The function is a small concurrent program: the loop tests one device
    after the other and starts a goroutine for each one it finds stale,
    the goroutines run [readSMARTctl] at any later moment, in any order,
    and [wg.Wait()] lets the function return once the counter of the
    wait group is zero.  A goroutine touches the shared cache once, in
    its [Store], so its run is one step here; the operating system and
    the clock answer each step as they like.  The records a collection
    logs enter [logs] at that step, all at once: [logs] says which
    records the finished collections have logged, not how the records of
    collections still running interleave. *)

Inductive Control :=
| Looping (rest : list Device)   (* [for _, device := range devices], devices left *)
| Waiting                        (* at [wg.Wait()] *)
| Returned.

Record Run `{gjson.Interface} := mkRun {
  control : Control;
  wg : nat;                         (* the counter of the [sync.WaitGroup] *)
  goroutines : list Device;         (* started, not finished *)
  jsonCache : gmap Key JSONCache;
  logs : list LogRecord
}.
Arguments mkRun {_} _ _ _ _ _.

(** What an observer of a run sees. *)
Inductive Event :=
| Checked (device : Device) (now : Time) (started : bool)
| Collected (device : Device)
| LoopDone
| WaitDone.

Section Refresh.
Context `{gjson.Interface}.

(** Refresh all devices' json: the state in which the body starts. *)
Definition refreshAllDevices (f : Flags) (devices : list Device)
    (jsonCache : gmap Key JSONCache) : Run :=
  if smartctlFakeData f then mkRun Returned 0 [] jsonCache []
  else mkRun (Looping devices) 0 [] jsonCache [].

Inductive step (f : Flags) : Run → Event → Run → Prop :=
| step_go device rest n g c l now :
    stale f c device now = true →
    step f (mkRun (Looping (device :: rest)) n g c l)
           (Checked device now true)
           (mkRun (Looping rest) (S n) (device :: g) c l)
| step_skip device rest n g c l now :
    stale f c device now = false →
    step f (mkRun (Looping (device :: rest)) n g c l)
           (Checked device now false)
           (mkRun (Looping rest) n g c l)
| step_loop_done n g c l :
    step f (mkRun (Looping []) n g c l) LoopDone (mkRun Waiting n g c l)
| step_goroutine ctl n g1 device g2 c l os clock :
    step f (mkRun ctl (S n) (g1 ++ device :: g2) c l)
           (Collected device)
           (mkRun ctl n (g1 ++ g2)
              (readSMARTctl f os clock device c).1
              (l ++ (readSMARTctl f os clock device c).2))
| step_wait g c l :
    step f (mkRun Waiting 0 g c l) WaitDone (mkRun Returned 0 g c l).

(** Executions, with the events in the order they happened. *)
Inductive steps (f : Flags) : Run → list Event → Run → Prop :=
| steps_refl r : steps f r [] r
| steps_step r1 e r2 es r3 :
    step f r1 e r2 → steps f r2 es r3 → steps f r1 (e :: es) r3.

(** The devices for which the loop started a collection, with the
    time of the test, and those it skipped; the collections that
    finished. *)
Fixpoint started (es : list Event) : list Device :=
  match es with
  | [] => []
  | Checked device _ true :: es' => device :: started es'
  | _ :: es' => started es'
  end.

Fixpoint tested (es : list Event) : list (Device * Time * bool) :=
  match es with
  | [] => []
  | Checked device now b :: es' => (device, now, b) :: tested es'
  | _ :: es' => tested es'
  end.

Fixpoint finished (es : list Event) : list Device :=
  match es with
  | [] => []
  | Collected device :: es' => device :: finished es'
  | _ :: es' => finished es'
  end.

(** The devices the loop has not reached yet. *)
Definition remaining (c : Control) : list Device :=
  match c with Looping rest => rest | _ => [] end.

(** A measure that every step decreases. *)
Definition rank (c : Control) : nat :=
  match c with Looping _ => 2 | Waiting => 1 | Returned => 0 end%nat.

Definition measure (r : Run) : nat :=
  (2 * length (remaining (control r)) + length (goroutines r) + rank (control r))%nat.

(** What holds of the events so far and of the state they led to, in
    a run of [refreshAllDevices f devices cache0]. *)
Record Inv (f : Flags) (devices : list Device) (cache0 : gmap Key JSONCache)
    (es : list Event) (r : Run) : Prop := {
  inv_wg : wg r = length (goroutines r);
  inv_started : started es ≡ₚ finished es ++ goroutines r;
  inv_loop : devices = (tested es).*1.*1 ++ remaining (control r);
  inv_cache k :
    (∀ d, k = KDevice d → d ∉ started es) → jsonCache r !! k = cache0 !! k;
  inv_tested :
    NoDup devices →
    ∀ d now b, (d, now, b) ∈ tested es → b = stale f cache0 d now;
  inv_returned :
    control r = Returned → wg r = 0%nat ∧ ∃ es', es = es' ++ [WaitDone]
}.

(** Executions that also record, for every collection that finishes,
    what the operating system and the clock answered to it: the same
    steps as [steps], with the answers of the goroutine steps kept. *)
Inductive answered (f : Flags)
    : Run → list Event → list (Device * OS * Clock) → Run → Prop :=
| answered_refl r : answered f r [] [] r
| answered_other r1 e r2 es cs r3 :
    step f r1 e r2 → (∀ device, e ≠ Collected device) →
    answered f r2 es cs r3 →
    answered f r1 (e :: es) cs r3
| answered_collected ctl n g1 device g2 c l os clock es cs r3 :
    answered f
      (mkRun ctl n (g1 ++ g2)
         (readSMARTctl f os clock device c).1
         (l ++ (readSMARTctl f os clock device c).2))
      es cs r3 →
    answered f (mkRun ctl (S n) (g1 ++ device :: g2) c l)
      (Collected device :: es) ((device, os, clock) :: cs) r3.

(** Each finished collection has left what it would have left had it
    run alone, with its own answers, on the cache of the call. *)
Record Alone (f : Flags) (cache0 : gmap Key JSONCache) (es : list Event)
    (cs : list (Device * OS * Clock)) (r : Run) : Prop := {
  alone_finished : cs.*1.*1 = finished es;
  alone_untouched k :
    (∀ d, k = KDevice d → d ∉ finished es) → jsonCache r !! k = cache0 !! k;
  alone_entry d os clock :
    (d, os, clock) ∈ cs →
    jsonCache r !! KDevice d = (readSMARTctl f os clock d cache0).1 !! KDevice d
}.
End Refresh.

(** ** A small implementation of the interface

    An executable implementation of [gjson.Interface] for JSON texts
    whose numbers are integers and whose strings use the escapes of one
    letter.  It shows that the laws can be met and lets the program run on
    concrete outputs of the tool.  Like the library it keeps the text of
    a result and reads it when a method is called. *)
Module minijson.

Inductive token :=
| TLBrace | TRBrace | TLBracket | TRBracket | TColon | TComma
| TString (s : string)
| TNumber (n : Z)
| TTrue | TFalse | TNull.

Inductive value :=
| VNull
| VBool (b : bool)
| VNumber (n : Z)
| VString (s : string)
| VArray (elems : list value)
| VObject (members : list (string * value)).

Definition is_space (c : ascii) : bool :=
  match c with
  | " "%char | "009"%char | "010"%char | "013"%char => true
  | _ => false
  end.

Definition digit (c : ascii) : option Z :=
  let n := Z.of_nat (nat_of_ascii c) in
  if (48 <=? n) && (n <=? 57) then Some (n - 48) else None.

Definition is_letter (c : ascii) : bool :=
  let n := Z.of_nat (nat_of_ascii c) in (97 <=? n) && (n <=? 122).

(** What the lexer is in the middle of. *)
Inductive lexing :=
| Between
| InString (rev_chars : string)
| InEscape (rev_chars : string)
| InMinus
| InNumber (negative : bool) (leading_zero : bool) (n : Z)
| InWord (rev_chars : string).

Definition rev_string (s : string) : string :=
  string_of_list_ascii (rev (list_ascii_of_string s)).

Definition word (rev_chars : string) : option token :=
  let w := rev_string rev_chars in
  if String.eqb w "true" then Some TTrue
  else if String.eqb w "false" then Some TFalse
  else if String.eqb w "null" then Some TNull
  else None.

Definition number (negative : bool) (n : Z) : token :=
  TNumber (if negative then - n else n).

Definition punctuation (c : ascii) : option token :=
  match c with
  | "{"%char => Some TLBrace
  | "}"%char => Some TRBrace
  | "["%char => Some TLBracket
  | "]"%char => Some TRBracket
  | ":"%char => Some TColon
  | ","%char => Some TComma
  | _ => None
  end.

Definition unescape (c : ascii) : option ascii :=
  match c with
  | "034"%char => Some "034"%char
  | "\"%char => Some "\"%char
  | "/"%char => Some "/"%char
  | "n"%char => Some "010"%char
  | "r"%char => Some "013"%char
  | "t"%char => Some "009"%char
  | _ => None
  end.

(** A character met between two tokens. *)
Definition between (c : ascii) : option (lexing * list token) :=
  if is_space c then Some (Between, [])
  else if Ascii.eqb c "034" then Some (InString EmptyString, [])
  else if Ascii.eqb c "-" then Some (InMinus, [])
  else match digit c with
       | Some d => Some (InNumber false (d =? 0) d, [])
       | None =>
           if is_letter c then Some (InWord (String c EmptyString), [])
           else match punctuation c with
                | Some t => Some (Between, [t])
                | None => None
                end
       end.

(** One character: the new state and the tokens that are complete. *)
Definition lex_char (st : lexing) (c : ascii) : option (lexing * list token) :=
  match st with
  | Between => between c
  | InString acc =>
      if Ascii.eqb c "034" then Some (Between, [TString (rev_string acc)])
      else if Ascii.eqb c "\" then Some (InEscape acc, [])
      else if Z.of_nat (nat_of_ascii c) <? 32 then None
      else Some (InString (String c acc), [])
  | InEscape acc =>
      match unescape c with
      | Some c' => Some (InString (String c' acc), [])
      | None => None
      end
  | InMinus =>
      match digit c with
      | Some d => Some (InNumber true (d =? 0) d, [])
      | None => None
      end
  | InNumber neg zero n =>
      match digit c with
      | Some d => if zero then None else Some (InNumber neg false (10 * n + d), [])
      | None =>
          match between c with
          | Some (st', ts) =>
              match st' with
              | Between => Some (st', number neg n :: ts)
              | _ => None
              end
          | None => None
          end
      end
  | InWord acc =>
      if is_letter c then Some (InWord (String c acc), [])
      else match word acc, between c with
           | Some t, Some (st', ts) =>
               match st' with
               | Between => Some (st', t :: ts)
               | _ => None
               end
           | _, _ => None
           end
  end.

(** The end of the text. *)
Definition lex_end (st : lexing) : option (list token) :=
  match st with
  | Between => Some []
  | InNumber neg _ n => Some [number neg n]
  | InWord acc => match word acc with Some t => Some [t] | None => None end
  | _ => None
  end.

Fixpoint lex (st : lexing) (s : string) : option (list token) :=
  match s with
  | EmptyString => lex_end st
  | String c s' =>
      match lex_char st c with
      | Some (st', ts) =>
          match lex st' s' with
          | Some ts' => Some (ts ++ ts')
          | None => None
          end
      | None => None
      end
  end.

(** A value, the elements of an array after its bracket, the members
    of an object after its brace; [fuel] bounds the depth. *)
Fixpoint parse_value (fuel : nat) (ts : list token) : option (value * list token) :=
  match fuel with
  | O => None
  | S fuel' =>
      match ts with
      | TNull :: r => Some (VNull, r)
      | TTrue :: r => Some (VBool true, r)
      | TFalse :: r => Some (VBool false, r)
      | TNumber n :: r => Some (VNumber n, r)
      | TString s :: r => Some (VString s, r)
      | TLBracket :: TRBracket :: r => Some (VArray [], r)
      | TLBracket :: r =>
          match parse_elems fuel' r with
          | Some (vs, r') => Some (VArray vs, r')
          | None => None
          end
      | TLBrace :: TRBrace :: r => Some (VObject [], r)
      | TLBrace :: r =>
          match parse_members fuel' r with
          | Some (ms, r') => Some (VObject ms, r')
          | None => None
          end
      | _ => None
      end
  end
with parse_elems (fuel : nat) (ts : list token) : option (list value * list token) :=
  match fuel with
  | O => None
  | S fuel' =>
      match parse_value fuel' ts with
      | Some (v, TComma :: r) =>
          match parse_elems fuel' r with
          | Some (vs, r') => Some (v :: vs, r')
          | None => None
          end
      | Some (v, TRBracket :: r) => Some ([v], r)
      | _ => None
      end
  end
with parse_members (fuel : nat) (ts : list token) : option (list (string * value) * list token) :=
  match fuel with
  | O => None
  | S fuel' =>
      match ts with
      | TString k :: TColon :: r =>
          match parse_value fuel' r with
          | Some (v, TComma :: r') =>
              match parse_members fuel' r' with
              | Some (ms, r'') => Some ((k, v) :: ms, r'')
              | None => None
              end
          | Some (v, TRBrace :: r') => Some ([(k, v)], r')
          | _ => None
          end
      | _ => None
      end
  end.

(** The value a text denotes, when it is one JSON value and nothing
    else. *)
Definition read (s : string) : option value :=
  match lex Between s with
  | Some ts =>
      match parse_value (S (length ts)) ts with
      | Some (v, []) => Some v
      | _ => None
      end
  | None => None
  end.

Definition escape (c : ascii) : string :=
  if Ascii.eqb c "034" then String "\" (String "034" EmptyString)
  else if Ascii.eqb c "\" then "\\"
  else if Ascii.eqb c "010" then "\n"
  else if Ascii.eqb c "013" then "\r"
  else if Ascii.eqb c "009" then "\t"
  else String c EmptyString.

Fixpoint quote_chars (s : string) : string :=
  match s with
  | EmptyString => EmptyString
  | String c s' => escape c +:+ quote_chars s'
  end.

Definition quote (s : string) : string :=
  String "034" (quote_chars s +:+ String "034" EmptyString).

Definition decimal (n : Z) : string :=
  NilZero.string_of_int (Z.to_int n).

(** The text of a value. *)
Fixpoint write (v : value) : string :=
  match v with
  | VNull => "null"
  | VBool true => "true"
  | VBool false => "false"
  | VNumber n => decimal n
  | VString s => quote s
  | VArray vs => "[" +:+ String.concat "," (map write vs) +:+ "]"
  | VObject ms =>
      "{" +:+ String.concat "," (map (λ m, quote m.1 +:+ ":" +:+ write m.2) ms) +:+ "}"
  end.

(** A result is missing or holds a text. *)
Inductive Result :=
| Missing
| Text (raw : string).

Fixpoint trim_left (s : string) : string :=
  match s with
  | EmptyString => EmptyString
  | String c s' => if is_space c then trim_left s' else s
  end.

Definition Valid (s : string) : bool :=
  match read s with Some _ => true | None => false end.

Definition Parse (s : string) : Result :=
  match trim_left s with
  | EmptyString => Missing
  | raw => Text raw
  end.

Definition Raw (r : Result) : string :=
  match r with Missing => EmptyString | Text raw => raw end.

Definition Exists (r : Result) : bool :=
  match r with Missing => false | Text _ => true end.

Definition value_of (r : Result) : option value :=
  match r with Missing => None | Text raw => read raw end.

(** The first member with the key, as the library finds it. *)
Fixpoint member (key : string) (ms : list (string * value)) : option value :=
  match ms with
  | [] => None
  | (k, v) :: ms' => if String.eqb k key then Some v else member key ms'
  end.

Fixpoint descend (keys : list string) (v : value) : option value :=
  match keys with
  | [] => Some v
  | key :: keys' =>
      match v with
      | VObject ms =>
          match member key ms with
          | Some v' => descend keys' v'
          | None => None
          end
      | _ => None
      end
  end.

(** [Get] for a path of keys separated by dots. *)
Definition Get (r : Result) (path : string) : Result :=
  match value_of r with
  | Some v =>
      match descend (strings_Split path ".") v with
      | Some v' => Text (write v')
      | None => Missing
      end
  | None => Missing
  end.

Definition int64 (n : Z) : Z := Z.max (- 2 ^ 63) (Z.min (2 ^ 63 - 1) n).

Definition Int (r : Result) : Z :=
  match value_of r with
  | Some (VNumber n) => int64 n
  | Some (VBool true) => 1
  | Some (VString s) =>
      match lex Between s with
      | Some [TNumber n] => int64 n
      | _ => 0
      end
  | _ => 0
  end.

Definition String (r : Result) : string :=
  match value_of r with
  | Some (VString s) => s
  | Some VNull => EmptyString
  | Some (VNumber n) => decimal n
  | _ => Raw r
  end.

Definition Array (r : Result) : list Result :=
  match r with
  | Missing => []
  | Text _ =>
      match value_of r with
      | Some (VArray vs) => map (λ v, Text (write v)) vs
      | Some VNull => []
      | _ => [r]
      end
  end.

#[export] Instance interface : gjson.Interface := {|
  gjson.Result := Result;
  gjson.zero := Missing;
  gjson.Valid := Valid;
  gjson.Parse := Parse;
  gjson.Get := Get;
  gjson.Int := Int;
  gjson.String := String;
  gjson.Exists := Exists;
  gjson.Array := Array;
  gjson.Raw := Raw
|}.
End minijson.

(** ** The scenario of the specification

    Two devices, a cache that holds a reading of the second taken at
    time 100, an interval of 60, and a tool whose answer is chosen by the
    test.  The documents are written with [minijson.write]. *)
Module scenario.
#[local] Existing Instance minijson.interface.

Definition sda := mkDevice "/dev/sda" "sat".
Definition sdb := mkDevice "/dev/sdb" "sat".
Definition flags := mkFlags "smartctl" "standby" ["sat"] false 60.
Definition fake_flags := mkFlags "smartctl" "standby" ["sat"] true 60.

(** A report with status code 4 (bit 2). *)
Definition healthy : minijson.value :=
  minijson.VObject
    [("smartctl", minijson.VObject [("exit_status", minijson.VNumber 4)]);
     ("model_name", minijson.VString "disk")].

(** A message of severity error, and a report with status code 0 that
    holds it. *)
Definition failure : minijson.value :=
  minijson.VObject
    [("string", minijson.VString "a mandatory SMART command failed");
     ("severity", minijson.VString "error")].

Definition failed : minijson.value :=
  minijson.VObject
    [("smartctl",
      minijson.VObject
        [("exit_status", minijson.VNumber 0);
         ("messages", minijson.VArray [failure])])].

(** A second message of severity error, and a report that holds both. *)
Definition failure_again : minijson.value :=
  minijson.VObject
    [("string", minijson.VString "the device is failing");
     ("severity", minijson.VString "error")].

Definition failed_twice : minijson.value :=
  minijson.VObject
    [("smartctl",
      minijson.VObject
        [("exit_status", minijson.VNumber 0);
         ("messages", minijson.VArray [failure; failure_again])])].

(** The answer of a scan. *)
Definition scanned : minijson.value :=
  minijson.VObject [("devices", minijson.VArray [])].

(** An operating system that answers every command with [out] and
    [err], and has no files. *)
Definition answers (out : string) (err : error) : OS :=
  mkOS (λ _ _, (out, err)) (λ _, (EmptyString, OtherError "no such file")).

Definition clock := mkClock 120 121 122.

Definition entry : JSONCache :=
  mkJSONCache (gjson.Parse (minijson.write healthy)) 100.

Definition cache : gmap Key JSONCache := <[KDevice sdb := entry]> (init ∅).
End scenario.

(** * Properties *)

(** ** The status code *)

Lemma flag_testbit b k : 0 ≤ k → flag b k = Z.testbit b k.
Proof.
  intros Hk. unfold flag. rewrite Z.shiftl_1_l.
  destruct (Z.testbit b k) eqn:Hb.
  - apply negb_true_iff, Z.eqb_neq. intros H0.
    assert (Z.testbit (Z.land b (2 ^ k)) k = true) as Hbit
      by (rewrite Z.land_spec, Hb, Z.pow2_bits_true; done).
    rewrite H0, Z.bits_0 in Hbit. done.
  - apply negb_false_iff, Z.eqb_eq, Z.bits_inj'. intros n Hn.
    rewrite Z.land_spec, Z.bits_0, Z.pow2_bits_eqb by done.
    destruct (Z.eqb_spec k n) as [->|]; [by rewrite Hb | by rewrite andb_false_r].
Qed.

(** A positive code: the answer looks at bits 0 and 1, the log follows
    the table. *)
Lemma resultCodeIsOk_positive device code :
  0 < code →
  resultCodeIsOk device code
  = (negb (Z.testbit code 0 || Z.testbit code 1), report device code).
Proof.
  intros Hpos. unfold resultCodeIsOk, report, status_table.
  apply Z.ltb_lt in Hpos. rewrite Hpos.
  rewrite !flag_testbit by lia. cbn [flat_map fst snd].
  destruct (Z.testbit code 0), (Z.testbit code 1), (Z.testbit code 2),
    (Z.testbit code 3), (Z.testbit code 4), (Z.testbit code 5),
    (Z.testbit code 6), (Z.testbit code 7); reflexivity.
Qed.

Lemma resultCodeIsOk_nonpositive device code :
  code ≤ 0 → resultCodeIsOk device code = (true, []).
Proof.
  intros Hle. unfold resultCodeIsOk.
  by destruct (Z.ltb_spec 0 code); [lia|].
Qed.

Lemma report_In device code bit lvl msg :
  (bit, lvl, msg) ∈ status_table → Z.testbit code bit = true →
  mkLog lvl msg [("device", ADevice device)] ∈ report device code.
Proof.
  intros Hrow Hbit. unfold report.
  apply list_elem_of_In, in_flat_map. exists (bit, lvl, msg). split.
  - by apply list_elem_of_In.
  - cbn. rewrite Hbit. by left.
Qed.

(** C2.  For every status code of 8 bits, [resultCodeIsOk] answers
    inadmissible exactly when bit 0 or bit 1 is set; what it logs is the
    table of the specification, so every set bit among 2 to 7 is logged
    as a warning and does not change the answer; the code 0 is
    admissible and logs nothing. *)
Theorem resultCodeIsOk_8bit device code :
  0 ≤ code < 256 →
  ((resultCodeIsOk device code).1 = false
     ↔ Z.testbit code 0 = true ∨ Z.testbit code 1 = true)
  ∧ (resultCodeIsOk device code).2 = report device code
  ∧ (∀ bit, 2 ≤ bit ≤ 7 → Z.testbit code bit = true →
       ∃ msg, (bit, LevelWarn, msg) ∈ status_table
              ∧ mkLog LevelWarn msg [("device", ADevice device)]
                  ∈ (resultCodeIsOk device code).2)
  ∧ resultCodeIsOk device 0 = (true, []).
Proof.
  intros Hrange.
  assert (resultCodeIsOk device code
          = (negb (Z.testbit code 0 || Z.testbit code 1), report device code)) as Heq.
  { destruct (decide (code = 0)) as [->|Hne].
    - reflexivity.
    - apply resultCodeIsOk_positive. lia. }
  rewrite Heq. cbn [fst snd]. repeat split.
  - intros Hfalse. apply negb_false_iff, orb_true_iff in Hfalse. done.
  - intros Hbits. by apply negb_false_iff, orb_true_iff.
  - intros bit Hbit Hset.
    assert (bit = 2 ∨ bit = 3 ∨ bit = 4 ∨ bit = 5 ∨ bit = 6 ∨ bit = 7)
      as [->|[->|[->|[->|[->| ->]]]]] by lia;
      [exists msg_bit2 | exists msg_bit3 | exists msg_bit4
      | exists msg_bit5 | exists msg_bit6 | exists msg_bit7];
      (split; [|eapply report_In; [|exact Hset]]);
      apply list_elem_of_In; cbn; tauto.
Qed.

(** Witness for C2: the code 6 has bit 1 set. *)
Lemma resultCodeIsOk_8bit_witness :
  0 ≤ 6 < 256 ∧ (resultCodeIsOk scenario.sda 6).1 = false.
Proof.
  assert (0 ≤ 6 < 256) as Hrange by lia.
  split; [exact Hrange|].
  apply (proj1 (resultCodeIsOk_8bit scenario.sda 6 Hrange)).
  right. reflexivity.
Defined.

(** C10.  [resultCodeIsOk] answers inadmissible exactly when the code
    is strictly positive and has bit 0 or bit 1 set.  So a code that is
    zero or negative, and a positive code with no bit set below bit 8
    (256 is one), is admissible, and nothing is logged for it. *)
Theorem resultCodeIsOk_characterised device code :
  ((resultCodeIsOk device code).1 = false
     ↔ 0 < code ∧ (Z.testbit code 0 = true ∨ Z.testbit code 1 = true))
  ∧ (code ≤ 0 → resultCodeIsOk device code = (true, []))
  ∧ (0 < code → (∀ bit, 0 ≤ bit < 8 → Z.testbit code bit = false) →
     resultCodeIsOk device code = (true, []))
  ∧ resultCodeIsOk device 256 = (true, []).
Proof.
  split; [|split; [|split]].
  - destruct (Z.ltb_spec 0 code) as [Hpos|Hle].
    + rewrite resultCodeIsOk_positive by done. cbn [fst].
      rewrite negb_false_iff, orb_true_iff. tauto.
    + rewrite resultCodeIsOk_nonpositive by done. cbn [fst]. split; [done|lia].
  - apply resultCodeIsOk_nonpositive.
  - intros Hpos Hlow. rewrite resultCodeIsOk_positive by done.
    unfold report, status_table. cbn [flat_map fst snd].
    by rewrite !Hlow by lia.
  - reflexivity.
Qed.

(** ** Strings *)

Lemma strings_HasPrefix_app prefix s : strings_HasPrefix (prefix +:+ s) prefix = true.
Proof.
  induction prefix as [|c prefix IH]; [done|].
  change (String c prefix +:+ s) with (String c (prefix +:+ s)).
  cbn. by rewrite Ascii.eqb_refl, IH.
Qed.

Lemma string_from_app prefix s : string_from (String.length prefix) (prefix +:+ s) = s.
Proof. induction prefix as [|c prefix IH]; [done|exact IH]. Qed.

Lemma strings_TrimPrefix_app prefix s : strings_TrimPrefix (prefix +:+ s) prefix = s.
Proof.
  unfold strings_TrimPrefix.
  by rewrite strings_HasPrefix_app, string_from_app.
Qed.

Lemma strings_Split_nonempty s sep : strings_Split s sep ≠ [].
Proof.
  destruct s as [|c s]; [done|]. cbn.
  destruct (Ascii.eqb c sep); [done|]. by destruct (strings_Split s sep).
Qed.

(** ** The collector, for any implementation of the interface *)

Section ProgramFacts.
Context `{gjson.Interface}.

Lemma jsonIsOk_range_clean ms :
  (∀ m, m ∈ ms → gjson.String (gjson.Get m "severity") ≠ "error") →
  jsonIsOk_range ms = (true, []).
Proof.
  induction ms as [|m ms IH]; intros Hclean; [done|].
  cbn [jsonIsOk_range].
  destruct (String.eqb_spec (gjson.String (gjson.Get m "severity")) "error") as [He|_].
  - exfalso. eapply Hclean; [|exact He]. by left.
  - apply IH. intros m' Hm'. apply Hclean. by right.
Qed.

(** The loop stops at the first message of severity error and logs its
    text. *)
Lemma jsonIsOk_range_error ms :
  (∃ m, m ∈ ms ∧ gjson.String (gjson.Get m "severity") = "error") →
  ∃ before m after,
    ms = before ++ m :: after
    ∧ (∀ m', m' ∈ before → gjson.String (gjson.Get m' "severity") ≠ "error")
    ∧ gjson.String (gjson.Get m "severity") = "error"
    ∧ jsonIsOk_range ms
      = (false, [mkLog LevelError (gjson.String (gjson.Get m "string")) []]).
Proof.
  induction ms as [|m0 ms IH]; intros (m & Hin & Hsev).
  - by apply elem_of_nil in Hin.
  - cbn [jsonIsOk_range].
    destruct (String.eqb_spec (gjson.String (gjson.Get m0 "severity")) "error") as [He|Hne].
    + exists [], m0, ms. split_and!; [done| |done|done].
      intros m' Hm'. by apply elem_of_nil in Hm'.
    + apply elem_of_cons in Hin as [->|Hin]; [done|].
      destruct IH as (before & m1 & after & -> & Hbefore & Hm1 & Hrun); [by eauto|].
      exists (m0 :: before), m1, after. split_and!; [done| |done|done].
      intros m' [->|Hm']%elem_of_cons; [done|by apply Hbefore].
Qed.

(** What [readSMARTctl] leaves in the cache. *)
Lemma readSMARTctl_cache f os clock device jsonCache :
  (readSMARTctl f os clock device jsonCache).1
  = if (resultCodeIsOk device (exit_status (collected f os device))).1
       && (jsonIsOk (collected f os device)).1
    then <[KDevice device := mkJSONCache (collected f os device) (at_store clock)]> jsonCache
    else jsonCache.
Proof.
  unfold readSMARTctl, collected, exit_status.
  destruct (Output os (smartctlPath f) (smartctlArgs f device)) as [out err].
  cbn [fst snd bind].
  by destruct (_ && _).
Qed.

(** What [readSMARTctl] logs. *)
Lemma readSMARTctl_logs f os clock device jsonCache :
  (readSMARTctl f os clock device jsonCache).2
  = mkLog LevelDebug "Calling smartctl with args"
      [("args", AString (strings_Join (smartctlArgs f device) " "))]
    :: (when (negb (is_nil (Output os (smartctlPath f) (smartctlArgs f device)).2))
          (logger.Warn "S.M.A.R.T. output reading"
             [("err", AErr (Output os (smartctlPath f) (smartctlArgs f device)).2);
              ("device", ADevice device)])).2
    ++ (resultCodeIsOk device (exit_status (collected f os device))).2
    ++ (jsonIsOk (collected f os device)).2
    ++ [mkLog LevelDebug "Collected S.M.A.R.T. json data"
          [("device", ADevice device);
           ("duration", ADuration (at_log clock - at_start clock))]].
Proof.
  unfold readSMARTctl, collected, exit_status.
  destruct (Output os (smartctlPath f) (smartctlArgs f device)) as [out err].
  cbn [fst snd bind logger.Debug app].
  f_equal. f_equal. f_equal. f_equal.
  by destruct (_ && _).
Qed.
End ProgramFacts.

(** ** The collector, for an implementation that keeps the laws *)

Section CollectorFacts.
Context `{gjson.Laws}.

Lemma parseJSON_invalid s : gjson.Valid s = false → parseJSON s = gjson.Parse "{}".
Proof. intros Hs. unfold parseJSON. by rewrite Hs. Qed.

Lemma parseJSON_valid s : gjson.Valid s = true → parseJSON s = gjson.Parse s.
Proof. intros Hs. unfold parseJSON. by rewrite Hs. Qed.

(** [parseJSON] never returns the zero result. *)
Lemma parseJSON_Exists s : gjson.Exists (parseJSON s) = true.
Proof.
  destruct (gjson.Valid s) eqn:Hs.
  - rewrite parseJSON_valid by done. by apply gjson.Exists_Parse.
  - rewrite parseJSON_invalid by done. apply gjson.Exists_Parse, gjson.Valid_object.
Qed.

(** A message list that has an entry exists. *)
Lemma error_message_Exists json m :
  error_message json m → gjson.Exists (gjson.Get json "smartctl.messages") = true.
Proof.
  intros [Hin _]. unfold messages in Hin.
  destruct (gjson.Exists _) eqn:Hex; [done|].
  rewrite gjson.Array_missing in Hin by done. by apply elem_of_nil in Hin.
Qed.

Lemma first_error_message_error json m :
  first_error_message json m → error_message json m.
Proof.
  intros (before & after & Hms & _ & Hsev). split; [|exact Hsev].
  unfold messages in *. rewrite Hms. apply elem_of_app. right. by left.
Qed.

Lemma jsonIsOk_error json m :
  error_message json m →
  ∃ m', first_error_message json m'
        ∧ jsonIsOk json
          = (false, [mkLog LevelError (gjson.String (gjson.Get m' "string")) []]).
Proof.
  intros Hm. unfold jsonIsOk.
  rewrite (error_message_Exists _ _ Hm).
  destruct (jsonIsOk_range_error (messages json))
    as (before & m' & after & Hms & Hbefore & Hsev & Hrun).
  { exists m. exact Hm. }
  exists m'. split; [|exact Hrun].
  by exists before, after.
Qed.

Lemma jsonIsOk_absent json :
  gjson.Exists (gjson.Get json "smartctl.messages") = false →
  jsonIsOk json = (true, []).
Proof. intros Habs. unfold jsonIsOk. by rewrite Habs. Qed.

(** The document of a launch that failed: no output, so the empty
    object. *)
Lemma collected_launch_failure f os device reason :
  Output os (smartctlPath f) (smartctlArgs f device) = (EmptyString, OtherError reason) →
  collected f os device = gjson.Parse "{}".
Proof.
  intros Hout. unfold collected. rewrite Hout. cbn [fst].
  apply parseJSON_invalid. exact gjson.Valid_empty.
Qed.

(** A launch that failed: the warning is logged, the empty object
    passes both checks, and it replaces the entry of the device. *)
Lemma readSMARTctl_launch_failure f os clock device jsonCache reason :
  Output os (smartctlPath f) (smartctlArgs f device) = (EmptyString, OtherError reason) →
  readSMARTctl f os clock device jsonCache
  = (<[KDevice device := mkJSONCache (gjson.Parse "{}") (at_store clock)]> jsonCache,
     [mkLog LevelDebug "Calling smartctl with args"
        [("args", AString (strings_Join (smartctlArgs f device) " "))];
      mkLog LevelWarn "S.M.A.R.T. output reading"
        [("err", AErr (OtherError reason)); ("device", ADevice device)];
      mkLog LevelDebug "Collected S.M.A.R.T. json data"
        [("device", ADevice device);
         ("duration", ADuration (at_log clock - at_start clock))]]).
Proof.
  intros Hout.
  pose proof (collected_launch_failure _ _ _ _ Hout) as Hjson.
  assert (exit_status (gjson.Parse "{}") = 0) as Hcode
    by apply gjson.Int_missing, gjson.Get_object_exit_status.
  apply injective_projections.
  - rewrite readSMARTctl_cache, Hjson, Hcode.
    by rewrite jsonIsOk_absent by apply gjson.Get_object_messages.
  - rewrite readSMARTctl_logs, Hjson, Hcode, Hout.
    by rewrite jsonIsOk_absent by apply gjson.Get_object_messages.
Qed.

(** C3, as amended.  Whatever the status code, when the message list of
    the parsed result has an entry whose severity is the string error,
    [jsonIsOk] answers false and logs the text of the first such entry
    (the loop returns there, so the text of a later one is not logged),
    and [readSMARTctl] logs that text and leaves the cache as it was.
    When the message list is absent, [jsonIsOk] answers true and logs
    nothing, and the result is stored exactly when [resultCodeIsOk]
    accepts the status code. *)
Theorem error_message_inadmissible f os clock device jsonCache :
  let json := collected f os device in
  (∀ m, error_message json m →
     ∃ m', first_error_message json m'
       ∧ jsonIsOk json
         = (false, [mkLog LevelError (gjson.String (gjson.Get m' "string")) []])
       ∧ mkLog LevelError (gjson.String (gjson.Get m' "string")) []
           ∈ (readSMARTctl f os clock device jsonCache).2
       ∧ (readSMARTctl f os clock device jsonCache).1 = jsonCache)
  ∧ (gjson.Exists (gjson.Get json "smartctl.messages") = false →
     jsonIsOk json = (true, [])
     ∧ (readSMARTctl f os clock device jsonCache).1
       = if (resultCodeIsOk device (exit_status json)).1
         then <[KDevice device := mkJSONCache json (at_store clock)]> jsonCache
         else jsonCache).
Proof.
  intros json. split.
  - intros m Hm. destruct (jsonIsOk_error _ _ Hm) as (m' & Hm' & Hrun).
    exists m'. split_and!; [done|done| |].
    + rewrite readSMARTctl_logs. fold json. rewrite Hrun.
      apply elem_of_cons. right.
      apply elem_of_app. right. apply elem_of_app. right.
      apply elem_of_app. left. by left.
    + rewrite readSMARTctl_cache. fold json. rewrite Hrun.
      by rewrite andb_false_r.
  - intros Habs. pose proof (jsonIsOk_absent _ Habs) as Hrun.
    split; [done|].
    rewrite readSMARTctl_cache. fold json. rewrite Hrun.
    by rewrite andb_true_r.
Qed.

(** C4.  A collection fails admission when [resultCodeIsOk] or
    [jsonIsOk] answers false: when the status code is positive with bit 0
    or bit 1 set, or when a message has severity error.  A collection
    that fails admission leaves the whole cache as it was: a device that
    had the entry [{data, t0}] before still has the same data and the
    same time. *)
Theorem inadmissible_keeps_entry f os clock device jsonCache data t0 :
  let json := collected f os device in
  let admitted := (resultCodeIsOk device (exit_status json)).1 && (jsonIsOk json).1 in
  jsonCache !! KDevice device = Some (mkJSONCache data t0) →
  (0 < exit_status json →
   Z.testbit (exit_status json) 0 = true ∨ Z.testbit (exit_status json) 1 = true →
   admitted = false)
  ∧ ((∃ m, error_message json m) → admitted = false)
  ∧ (admitted = false →
     (readSMARTctl f os clock device jsonCache).1 = jsonCache
     ∧ (readSMARTctl f os clock device jsonCache).1 !! KDevice device
       = Some (mkJSONCache data t0)).
Proof.
  intros json admitted Hentry. subst admitted. split_and!.
  - intros Hpos Hbits. rewrite resultCodeIsOk_positive by done. cbn [fst].
    assert (Z.testbit (exit_status json) 0 || Z.testbit (exit_status json) 1 = true)
      as -> by (apply orb_true_iff; exact Hbits).
    done.
  - intros [m Hm]. destruct (jsonIsOk_error _ _ Hm) as (m' & _ & ->).
    by rewrite andb_false_r.
  - intros Hfail.
    assert ((readSMARTctl f os clock device jsonCache).1 = jsonCache) as Hsame.
    { rewrite readSMARTctl_cache. fold json. by rewrite Hfail. }
    by rewrite Hsame.
Qed.

(** C6.  When the tool exits with status 2, the scanner logs no warning
    and returns what [parseJSON] makes of the output, which is never the
    zero result and is the parsed output when the output is valid.  For
    any other exit status of a failed run, and for a tool that could not
    be started, it logs a warning and returns the zero result.  In every
    case it returns. *)
Theorem scan_exit_status f os :
  let out := (Output os (smartctlPath f) (scanArgs f)).1 in
  let err := (Output os (smartctlPath f) (scanArgs f)).2 in
  (err = ExitError 2 →
     readSMARTctlDevices f os
     = (parseJSON out,
        [mkLog LevelDebug "Scanning for devices" [];
         mkLog LevelDebug "Exit Status" [("exit_code", AInt 2)]])
     ∧ gjson.Exists (readSMARTctlDevices f os).1 = true
     ∧ (gjson.Valid out = true → (readSMARTctlDevices f os).1 = gjson.Parse out))
  ∧ (∀ code, err = ExitError code → code ≠ 2 →
     readSMARTctlDevices f os
     = (gjson.zero,
        [mkLog LevelDebug "Scanning for devices" [];
         mkLog LevelDebug "Exit Status" [("exit_code", AInt code)];
         mkLog LevelWarn "S.M.A.R.T. output reading error" [("err", AErr err)]]))
  ∧ (∀ reason, err = OtherError reason →
     readSMARTctlDevices f os
     = (gjson.zero,
        [mkLog LevelDebug "Scanning for devices" [];
         mkLog LevelWarn "S.M.A.R.T. output reading error" [("err", AErr err)]]))
  ∧ gjson.Exists gjson.zero = false.
Proof.
  intros out err. subst out err. unfold readSMARTctlDevices.
  destruct (Output os (smartctlPath f) (scanArgs f)) as [out err]. cbn [fst snd].
  split_and!.
  - intros ->. cbn. split_and!; [done|apply parseJSON_Exists|apply parseJSON_valid].
  - intros code -> Hcode. cbn.
    by destruct (Z.eqb_spec code 2).
  - by intros reason ->.
  - exact gjson.Exists_zero.
Qed.

(** C7.  When the output of the tool is the artifact followed by a
    valid document, the text that is parsed is the document, the result
    [readSMARTctl] works on is the parsed document (not the empty object
    that the unstripped text would give), and this is what the cache
    receives when the result is admitted. *)
Theorem artifact_stripped f os clock device jsonCache doc :
  gjson.Valid doc = true →
  (Output os (smartctlPath f) (smartctlArgs f device)).1 = artifact +:+ doc →
  strings_TrimPrefix (artifact +:+ doc) artifact = doc
  ∧ collected f os device = gjson.Parse doc
  ∧ (readSMARTctl f os clock device jsonCache).1
    = if (resultCodeIsOk device (exit_status (gjson.Parse doc))).1
         && (jsonIsOk (gjson.Parse doc)).1
      then <[KDevice device := mkJSONCache (gjson.Parse doc) (at_store clock)]> jsonCache
      else jsonCache.
Proof.
  intros Hvalid Hout.
  assert (collected f os device = gjson.Parse doc) as Hjson.
  { unfold collected. rewrite Hout, strings_TrimPrefix_app. by apply parseJSON_valid. }
  split_and!; [apply strings_TrimPrefix_app|done|].
  by rewrite readSMARTctl_cache, Hjson.
Qed.

(** C8.  [parseJSON] returns the empty object for every text that is
    not valid, the empty text among them, and always returns; it is a
    function of the text alone, so parsing a text twice gives the same
    value; and parsing the text that a parsed result holds gives a
    result that holds the same text. *)
Theorem parseJSON_total_idempotent :
  (∀ s, gjson.Valid s = false → parseJSON s = gjson.Parse "{}")
  ∧ parseJSON EmptyString = gjson.Parse "{}"
  ∧ (∀ s1 s2, s1 = s2 → parseJSON s1 = parseJSON s2)
  ∧ (∀ s, gjson.Raw (parseJSON (gjson.Raw (parseJSON s))) = gjson.Raw (parseJSON s)).
Proof.
  split_and!.
  - apply parseJSON_invalid.
  - apply parseJSON_invalid, gjson.Valid_empty.
  - by intros s1 s2 ->.
  - assert (∀ s, gjson.Valid s = true →
                 gjson.Raw (parseJSON (gjson.Raw (gjson.Parse s))) = gjson.Raw (gjson.Parse s))
      as Hvalid.
    { intros s Hs. rewrite parseJSON_valid by by apply gjson.Valid_Raw.
      by apply gjson.Raw_Parse_Raw. }
    intros s. destruct (gjson.Valid s) eqn:Hs.
    + rewrite (parseJSON_valid s) by done. by apply Hvalid.
    + rewrite (parseJSON_invalid s) by done. apply Hvalid, gjson.Valid_object.
Qed.

(** C9.  Outside the fake-data mode, reading a device that has no entry
    in the cache logs the warning "device not found" and returns the zero
    result, which holds nothing; the call returns normally. *)
Theorem readData_unknown_device f os device jsonCache :
  smartctlFakeData f = false →
  jsonCache !! KDevice device = None →
  readData f os device jsonCache
  = (gjson.zero, [mkLog LevelWarn "device not found" [("device", ADevice device)]])
  ∧ gjson.Exists (readData f os device jsonCache).1 = false.
Proof.
  intros Hfake Hnone. unfold readData. rewrite Hfake, Hnone. cbn.
  split; [done|apply gjson.Exists_zero].
Qed.
End CollectorFacts.

(** ** The small implementation keeps the laws *)

Lemma minijson_lex_space c s :
  minijson.is_space c = true →
  minijson.lex minijson.Between (String c s) = minijson.lex minijson.Between s.
Proof.
  intros Hc. cbn [minijson.lex minijson.lex_char]. unfold minijson.between.
  rewrite Hc. by destruct (minijson.lex minijson.Between s).
Qed.

Lemma minijson_read_trim_left s : minijson.read (minijson.trim_left s) = minijson.read s.
Proof.
  unfold minijson.read. induction s as [|c s IH]; [done|].
  cbn [minijson.trim_left]. destruct (minijson.is_space c) eqn:Hc; [|done].
  by rewrite minijson_lex_space.
Qed.

Lemma minijson_trim_left_idemp s :
  minijson.trim_left (minijson.trim_left s) = minijson.trim_left s.
Proof.
  induction s as [|c s IH]; [done|].
  cbn [minijson.trim_left]. destruct (minijson.is_space c) eqn:Hc; [done|].
  cbn [minijson.trim_left]. by rewrite Hc.
Qed.

Lemma minijson_Raw_Parse s : minijson.Raw (minijson.Parse s) = minijson.trim_left s.
Proof. unfold minijson.Parse. by destruct (minijson.trim_left s). Qed.

Lemma minijson_Valid_trim_left s :
  minijson.Valid (minijson.trim_left s) = minijson.Valid s.
Proof. unfold minijson.Valid. by rewrite minijson_read_trim_left. Qed.

Lemma minijson_laws : @gjson.Laws minijson.interface.
Proof.
  split.
  - reflexivity.
  - reflexivity.
  - intros s Hs. rewrite <- minijson_Valid_trim_left in Hs.
    cbn. unfold minijson.Parse. by destruct (minijson.trim_left s).
  - reflexivity.
  - reflexivity.
  - reflexivity.
  - by intros [|raw].
  - by intros [|raw].
  - intros s Hs. cbn. by rewrite minijson_Raw_Parse, minijson_Valid_trim_left.
  - intros s _. cbn. by rewrite !minijson_Raw_Parse, minijson_trim_left_idemp.
Qed.

(** ** The runs of [refreshAllDevices] *)

Section RefreshFacts.
Context `{gjson.Interface}.

(** A device is stale when it has no entry, or when the time is past
    the time of its entry plus the interval. *)
Lemma stale_iff f (c : gmap Key JSONCache) device now :
  stale f c device now = true
  ↔ c !! KDevice device = None
    ∨ ∃ cacheValue, c !! KDevice device = Some cacheValue
                    ∧ LastCollect cacheValue + smartctlInterval f < now.
Proof.
  unfold stale, Time_After, Time_Add.
  destruct (c !! KDevice device) as [cacheValue|].
  - rewrite Z.ltb_lt. split.
    + intros Hlt. right. by exists cacheValue.
    + intros [Hnone|(cv & [= <-] & Hlt)]; done.
  - split; [by left|done].
Qed.

Lemma tested_app es1 es2 : tested (es1 ++ es2) = tested es1 ++ tested es2.
Proof.
  induction es1 as [|[d now b|d| |] es1 IH]; cbn; [done| |done..].
  by rewrite IH.
Qed.

Lemma started_app es1 es2 : started (es1 ++ es2) = started es1 ++ started es2.
Proof.
  induction es1 as [|[d now [|]|d| |] es1 IH]; cbn; [done| |done..].
  by rewrite IH.
Qed.

Lemma finished_app es1 es2 : finished (es1 ++ es2) = finished es1 ++ finished es2.
Proof.
  induction es1 as [|[d now b|d| |] es1 IH]; cbn; [done|done| |done..].
  by rewrite IH.
Qed.

(** The collections started are the tests that answered yes. *)
Lemma started_tested es :
  started es = (filter (λ t, t.2 = true) (tested es)).*1.*1.
Proof.
  induction es as [|[d now [|]|d| |] es IH]; cbn [started tested]; [done| | |done..].
  - rewrite filter_cons_True by done. cbn. by rewrite IH.
  - by rewrite filter_cons_False by done.
Qed.

Lemma started_in_tested es d : d ∈ started es → d ∈ (tested es).*1.*1.
Proof.
  rewrite started_tested. intros Hd.
  apply list_elem_of_fmap in Hd as (p & -> & Hp).
  apply list_elem_of_fmap in Hp as (t & -> & Ht).
  apply list_elem_of_filter in Ht as [_ Ht].
  apply list_elem_of_fmap. exists t.1. split; [done|].
  apply list_elem_of_fmap. by exists t.
Qed.

Lemma step_measure f r e r' : step f r e r' → (measure r' < measure r)%nat.
Proof.
  destruct 1; unfold measure; cbn [control goroutines remaining rank];
    rewrite ?length_app; cbn [length]; lia.
Qed.

Lemma steps_length f r es r' :
  steps f r es r' → (length es + measure r' ≤ measure r)%nat.
Proof.
  induction 1 as [r|r1 e r2 es r3 Hstep _ IH]; cbn [length]; [lia|].
  apply step_measure in Hstep. lia.
Qed.

Lemma Inv_init f devices cache0 :
  Inv f devices cache0 [] (mkRun (Looping devices) 0 [] cache0 []).
Proof. split; cbn; try done. intros _ d now b Hin. by apply elem_of_nil in Hin. Qed.

(** When the devices are distinct, the device under test has no
    collection in flight or behind it, so its entry is the one of the
    start. *)
Lemma Inv_stale f devices cache0 es rest n g c l device now :
  NoDup devices →
  Inv f devices cache0 es (mkRun (Looping (device :: rest)) n g c l) →
  stale f c device now = stale f cache0 device now.
Proof.
  intros Hnodup HI. unfold stale.
  pose proof (inv_cache _ _ _ _ _ HI (KDevice device)) as Hc. cbn in Hc.
  rewrite Hc; [done|].
  intros d [= <-] Hd. apply started_in_tested in Hd.
  pose proof (inv_loop _ _ _ _ _ HI) as Hloop. cbn in Hloop.
  rewrite Hloop in Hnodup. apply NoDup_app in Hnodup as (_ & Hdisj & _).
  apply (Hdisj device Hd). by left.
Qed.

Ltac inv_open HI Hwg Hst Hloop Hcache Htested Hret :=
  destruct HI as [Hwg Hst Hloop Hcache Htested Hret];
  cbn [control wg goroutines jsonCache logs remaining] in *;
  rewrite ?app_nil_r in Hloop.

Ltac inv_split :=
  split; cbn [control wg goroutines jsonCache logs remaining];
  rewrite ?tested_app, ?started_app, ?finished_app;
  cbn [started tested finished]; rewrite ?app_nil_r.

Lemma Inv_step f devices cache0 es r e r' :
  Inv f devices cache0 es r → step f r e r' → Inv f devices cache0 (es ++ [e]) r'.
Proof.
  intros HI Hstep.
  destruct Hstep as [device rest n g c l now Hstale
                    |device rest n g c l now Hstale
                    |n g c l
                    |ctl n g1 device g2 c l os clock
                    |g c l].
  - (* a collection is started *)
    pose proof HI as HI'.
    inv_open HI Hwg Hst Hloop Hcache Htested Hret.
    inv_split.
    + by rewrite Hwg.
    + rewrite Hst, <- app_assoc. apply Permutation_app_head.
      symmetry. apply Permutation_cons_append.
    + rewrite !fmap_app. cbn. by rewrite <- app_assoc.
    + intros k Hk. apply Hcache. intros d -> Hd. apply (Hk d eq_refl).
      apply elem_of_app. by left.
    + intros Hnodup d now' b [Hin|Hin]%elem_of_app.
      * by apply Htested.
      * apply list_elem_of_singleton in Hin as [= -> -> ->].
        rewrite <- Hstale. by eapply Inv_stale.
    + done.
  - (* the device is skipped *)
    pose proof HI as HI'.
    inv_open HI Hwg Hst Hloop Hcache Htested Hret.
    inv_split.
    + done.
    + done.
    + rewrite !fmap_app. cbn. by rewrite <- app_assoc.
    + done.
    + intros Hnodup d now' b [Hin|Hin]%elem_of_app.
      * by apply Htested.
      * apply list_elem_of_singleton in Hin as [= -> -> ->].
        rewrite <- Hstale. by eapply Inv_stale.
    + done.
  - (* the loop ends *)
    inv_open HI Hwg Hst Hloop Hcache Htested Hret.
    inv_split; done.
  - (* a goroutine runs *)
    inv_open HI Hwg Hst Hloop Hcache Htested Hret.
    assert (device ∈ started es) as Hdev.
    { rewrite Hst. apply elem_of_app. right. apply elem_of_app. right. by left. }
    inv_split.
    + rewrite length_app in *. cbn in Hwg. lia.
    + rewrite Hst. rewrite <- !app_assoc. apply Permutation_app_head.
      cbn. by rewrite <- Permutation_middle.
    + done.
    + intros k Hk. rewrite readSMARTctl_cache.
      destruct (_ && _); [|by apply Hcache].
      rewrite lookup_insert_ne; [by apply Hcache|].
      intros <-. by apply (Hk device).
    + done.
    + intros Hctl. destruct (Hret Hctl) as [Hzero _]. lia.
  - (* the wait is over *)
    inv_open HI Hwg Hst Hloop Hcache Htested Hret.
    inv_split; try done.
    intros _. split; [done|]. by exists es.
Qed.

Lemma Inv_steps f devices cache0 es0 r0 es r :
  Inv f devices cache0 es0 r0 → steps f r0 es r → Inv f devices cache0 (es0 ++ es) r.
Proof.
  intros HI Hsteps. revert es0 HI.
  induction Hsteps as [r|r1 e r2 es r3 Hstep _ IH]; intros es0 HI.
  - by rewrite app_nil_r.
  - rewrite cons_middle, app_assoc. apply IH. by eapply Inv_step.
Qed.

(** Whoever has not returned can go on. *)
Lemma Inv_progress f devices cache0 es r :
  Inv f devices cache0 es r → control r ≠ Returned → ∃ e r', step f r e r'.
Proof.
  intros HI Hctl. destruct r as [ctl n g c l]. cbn in Hctl.
  pose proof (inv_wg _ _ _ _ _ HI) as Hwg. cbn in Hwg.
  destruct ctl as [[|device rest]| |]; [| | |done].
  - eexists _, _. apply step_loop_done.
  - destruct (stale f c device 0) eqn:Hstale; eexists _, _.
    + by apply step_go.
    + by apply step_skip.
  - destruct g as [|device g]; cbn in Hwg; subst n.
    + eexists _, _. apply step_wait.
    + eexists _, _.
      apply (step_goroutine f Waiting (length g) [] device g c l
               (mkOS (λ _ _, (EmptyString, nil_error)) (λ _, (EmptyString, nil_error)))
               (mkClock 0 0 0)).
Qed.

(** Every run can be continued to the return of the function. *)
Lemma steps_to_return f devices cache0 es r :
  Inv f devices cache0 es r →
  ∃ es' r', steps f r es' r' ∧ control r' = Returned.
Proof.
  intros HI.
  remember (measure r) as m eqn:Hm. revert es r HI Hm.
  induction (lt_wf m) as [m _ IH]. intros es r HI ->.
  assert (control r = Returned ∨ control r ≠ Returned) as [Hret|Hnot]
    by (destruct (control r); auto).
  - exists [], r. split; [apply steps_refl|done].
  - destruct (Inv_progress _ _ _ _ _ HI Hnot) as (e & r1 & Hstep).
    destruct (IH (measure r1)) with (es := es ++ [e]) (r := r1)
      as (es' & r' & Hsteps & Hret).
    + by eapply step_measure.
    + by eapply Inv_step.
    + done.
    + exists (e :: es'), r'. split; [by eapply steps_step|done].
Qed.
End RefreshFacts.

(** In the fake-data mode the function returns at once: no step is
    taken, nothing is started, the cache is the one of the call. *)
Lemma refreshAllDevices_fake_data `{gjson.Interface} f devices jsonCache0 es r :
  smartctlFakeData f = true →
  steps f (refreshAllDevices f devices jsonCache0) es r →
  es = [] ∧ r = mkRun Returned 0 [] jsonCache0 [].
Proof.
  intros Hfake. unfold refreshAllDevices. rewrite Hfake. intros Hsteps.
  inversion Hsteps as [r0|r1 e r2 es' r3 Hstep Hrest]; subst; [done|].
  inversion Hstep.
Qed.

(** C5, as amended.  Outside the fake-data mode, every run of
    [refreshAllDevices] goes on until the function returns and takes a
    bounded number of steps.  When it has returned: every device of the
    list was tested once, in the order of the list; a collection was
    started for exactly the tests that found the device stale; when the
    devices of the list are distinct, a test finds the device stale
    exactly when the cache at the call has no entry for it or the time of
    the test is past [LastCollect + interval]; every collection that was
    started has finished, once, before the return of [wg.Wait()], which
    is the last event; and the entry of a device for which no collection
    was started is the one the cache had at the call. *)
Theorem refreshAllDevices_schedule `{gjson.Interface} f devices jsonCache0 :
  smartctlFakeData f = false →
  (∃ es r, steps f (refreshAllDevices f devices jsonCache0) es r ∧ control r = Returned)
  ∧ ∀ es r, steps f (refreshAllDevices f devices jsonCache0) es r →
      (length es ≤ 2 * length devices + 2)%nat
      ∧ (control r ≠ Returned → ∃ e r', step f r e r')
      ∧ (control r = Returned →
           (tested es).*1.*1 = devices
           ∧ started es = (filter (λ t, t.2 = true) (tested es)).*1.*1
           ∧ (NoDup devices →
              ∀ device now b, (device, now, b) ∈ tested es →
                              b = stale f jsonCache0 device now)
           ∧ finished es ≡ₚ started es
           ∧ goroutines r = [] ∧ wg r = 0%nat
           ∧ (∃ es', es = es' ++ [WaitDone])
           ∧ (∀ device, device ∉ started es →
                jsonCache r !! KDevice device = jsonCache0 !! KDevice device)).
Proof.
  intros Hfake. unfold refreshAllDevices. rewrite Hfake.
  pose proof (Inv_init f devices jsonCache0) as Hinit.
  split.
  - by apply (steps_to_return f devices jsonCache0 []).
  - intros es r Hsteps.
    pose proof (Inv_steps _ _ _ _ _ _ _ Hinit Hsteps) as HI. cbn [app] in HI.
    split_and!.
    + apply steps_length in Hsteps. unfold measure in Hsteps at 2.
      cbn [control goroutines remaining rank length] in Hsteps. lia.
    + by eapply Inv_progress.
    + intros Hret.
      destruct HI as [Hwg Hst Hloop Hcache Htested Hreturned].
      destruct (Hreturned Hret) as [Hzero Hlast].
      rewrite Hret in Hloop. cbn in Hloop. rewrite app_nil_r in Hloop.
      assert (goroutines r = []) as Hnone.
      { apply length_zero_iff_nil. by rewrite <- Hwg. }
      rewrite Hnone, app_nil_r in Hst.
      split_and!; try done.
      * apply started_tested.
      * intros device Hdev. apply Hcache. by intros d [= <-].
Qed.

Section Scenario.
#[local] Existing Instance minijson.interface.
#[local] Existing Instance minijson_laws.

(** Witness for C5, the scenario of the specification: [sda] is stale,
    [sdb] is fresh; one collection is started, for [sda], and the entry
    of [sdb] is untouched. *)
Lemma refreshAllDevices_schedule_witness :
  smartctlFakeData scenario.flags = false
  ∧ ∃ es r,
      steps scenario.flags
        (refreshAllDevices scenario.flags [scenario.sda; scenario.sdb] scenario.cache) es r
      ∧ control r = Returned
      ∧ started es = [scenario.sda]
      ∧ finished es ≡ₚ started es
      ∧ jsonCache r !! KDevice scenario.sdb = Some scenario.entry.
Proof.
  split; [reflexivity|].
  set (os := scenario.answers (minijson.write scenario.healthy) (ExitError 4)).
  exists [Checked scenario.sda 130 true; Checked scenario.sdb 130 false; LoopDone;
          Collected scenario.sda; WaitDone].
  eexists.
  assert (steps scenario.flags
            (refreshAllDevices scenario.flags [scenario.sda; scenario.sdb] scenario.cache)
            [Checked scenario.sda 130 true; Checked scenario.sdb 130 false; LoopDone;
             Collected scenario.sda; WaitDone]
            (mkRun Returned 0 []
               (readSMARTctl scenario.flags os scenario.clock scenario.sda scenario.cache).1
               ([] ++ (readSMARTctl scenario.flags os scenario.clock scenario.sda
                         scenario.cache).2)))
    as Hsteps.
  { eapply steps_step; [by apply step_go|].
    eapply steps_step; [by apply step_skip|].
    eapply steps_step; [apply step_loop_done|].
    eapply steps_step;
      [apply (step_goroutine scenario.flags Waiting 0 [] scenario.sda [] _ _
                os scenario.clock)|].
    eapply steps_step; [apply step_wait|].
    apply steps_refl. }
  split; [exact Hsteps|].
  split; [reflexivity|].
  split; [reflexivity|].
  destruct (refreshAllDevices_schedule scenario.flags
              [scenario.sda; scenario.sdb] scenario.cache eq_refl) as [_ Hall].
  destruct (Hall _ _ Hsteps) as (_ & _ & Hret).
  destruct (Hret eq_refl) as (_ & _ & _ & Hdone & _ & _ & _ & Hkeep).
  split; [exact Hdone|].
  rewrite Hkeep.
  - apply lookup_insert_eq.
  - cbn. intros [= Hsame]%list_elem_of_singleton.
Defined.

(** Counterexample to C5 as stated: in the fake-data mode a device that
    is stale at every time gets no collection; the function returns at
    once, in a state no step leaves. *)
Lemma refreshAllDevices_fake_data_schedules_nothing :
  (∀ now, stale scenario.fake_flags ∅ scenario.sda now = true)
  ∧ ∀ es r,
      steps scenario.fake_flags
        (refreshAllDevices scenario.fake_flags [scenario.sda] ∅) es r →
      control r = Returned ∧ es = [] ∧ started es = [].
Proof.
  split; [done|].
  intros es r Hsteps.
  by destruct (refreshAllDevices_fake_data scenario.fake_flags _ _ _ _ eq_refl Hsteps)
    as [-> ->].
Qed.

(** A list that names one device twice: both tests can come before the
    first collection has stored its result, and then two collections are
    started for the device. *)
Lemma refreshAllDevices_same_device_twice :
  ∃ es r,
    steps scenario.flags
      (refreshAllDevices scenario.flags [scenario.sda; scenario.sda] ∅) es r
    ∧ control r = Returned
    ∧ started es = [scenario.sda; scenario.sda].
Proof.
  set (os := scenario.answers (minijson.write scenario.healthy) (ExitError 4)).
  exists [Checked scenario.sda 130 true; Checked scenario.sda 130 true; LoopDone;
          Collected scenario.sda; Collected scenario.sda; WaitDone].
  eexists. split.
  { eapply steps_step; [by apply step_go|].
    eapply steps_step; [by apply step_go|].
    eapply steps_step; [apply step_loop_done|].
    eapply steps_step;
      [apply (step_goroutine scenario.flags Waiting 1 [] scenario.sda [scenario.sda] _ _
                os scenario.clock)|].
    eapply steps_step;
      [apply (step_goroutine scenario.flags Waiting 0 [] scenario.sda [] _ _
                os scenario.clock)|].
    eapply steps_step; [apply step_wait|].
    apply steps_refl. }
  split; reflexivity.
Qed.

(** C1, the code at the failing input.  The tool cannot be started and
    there is no output; [sdb] has a reading taken at 100.  After
    [readSMARTctl] the entry of [sdb] is the empty object with the time of
    the call: the reading is lost. *)
Theorem readSMARTctl_launch_failure_overwrites :
  let os := scenario.answers EmptyString
              (OtherError "exec: smartctl: executable file not found in $PATH") in
  let after := (readSMARTctl scenario.flags os scenario.clock
                  scenario.sdb scenario.cache).1 in
  scenario.cache !! KDevice scenario.sdb = Some scenario.entry
  ∧ after !! KDevice scenario.sdb = Some (mkJSONCache (gjson.Parse "{}") 122)
  ∧ after ≠ scenario.cache
  ∧ mkLog LevelWarn "S.M.A.R.T. output reading"
      [("err", AErr (OtherError "exec: smartctl: executable file not found in $PATH"));
       ("device", ADevice scenario.sdb)]
      ∈ (readSMARTctl scenario.flags os scenario.clock scenario.sdb scenario.cache).2.
Proof.
  intros os after.
  pose proof (readSMARTctl_launch_failure scenario.flags os scenario.clock scenario.sdb
                scenario.cache _ eq_refl) as Hrun.
  assert (after !! KDevice scenario.sdb = Some (mkJSONCache (gjson.Parse "{}") 122))
    as Hafter.
  { subst after. rewrite Hrun. cbn [fst]. apply lookup_insert_eq. }
  assert (scenario.cache !! KDevice scenario.sdb = Some scenario.entry) as Hbefore
    by apply lookup_insert_eq.
  split_and!; [done|done| |].
  - intros Heq. rewrite Heq, Hbefore in Hafter. discriminate Hafter.
  - rewrite Hrun. cbn [snd]. apply elem_of_cons. right. by left.
Qed.

(** The scenario of the specification for an admissible result: status
    code 4 (bit 2) and no message; the warning of bit 2 is logged and the
    entry is written with the time of the store. *)
Example readSMARTctl_admits_warning :
  let os := scenario.answers (minijson.write scenario.healthy) (ExitError 4) in
  let run := readSMARTctl scenario.flags os scenario.clock scenario.sda scenario.cache in
  run.1 !! KDevice scenario.sda
    = Some (mkJSONCache (gjson.Parse (minijson.write scenario.healthy)) 122)
  ∧ run.1 !! KDevice scenario.sdb = Some scenario.entry
  ∧ mkLog LevelWarn msg_bit2 [("device", ADevice scenario.sda)] ∈ run.2.
Proof.
  intros os run. subst run. rewrite readSMARTctl_cache, readSMARTctl_logs.
  assert ((resultCodeIsOk scenario.sda
             (exit_status (collected scenario.flags os scenario.sda))).1
          && (jsonIsOk (collected scenario.flags os scenario.sda)).1 = true) as ->
    by reflexivity.
  split_and!.
  - apply lookup_insert_eq.
  - rewrite lookup_insert_ne by done. apply lookup_insert_eq.
  - apply list_elem_of_In. vm_compute. tauto.
Qed.

(** Witness for C3, the test of the specification: status code 0 and a
    message of severity error; nothing is stored and the text is
    logged. *)
Lemma error_message_inadmissible_witness :
  let os := scenario.answers (minijson.write scenario.failed) nil_error in
  exit_status (collected scenario.flags os scenario.sdb) = 0
  ∧ (readSMARTctl scenario.flags os scenario.clock scenario.sdb scenario.cache).1
    = scenario.cache
  ∧ mkLog LevelError "a mandatory SMART command failed" []
      ∈ (readSMARTctl scenario.flags os scenario.clock scenario.sdb scenario.cache).2.
Proof.
  intros os. split; [reflexivity|].
  destruct (error_message_inadmissible scenario.flags os scenario.clock scenario.sdb
              scenario.cache) as [Herr _].
  destruct (Herr (gjson.Parse (minijson.write scenario.failure)))
    as (m & _ & _ & _ & Hcache).
  { split; [|reflexivity]. apply list_elem_of_In. left. reflexivity. }
  split; [exact Hcache|].
  apply list_elem_of_In. vm_compute. tauto.
Defined.

(** Counterexample to C3 as stated: a report with two messages of
    severity error.  The second is an entry of severity error, the result
    is not stored, and the text of the second is not logged: the only
    record at error level is the text of the first. *)
Lemma second_error_message_not_logged :
  let os := scenario.answers (minijson.write scenario.failed_twice) nil_error in
  let second := gjson.Parse (minijson.write scenario.failure_again) in
  let run := readSMARTctl scenario.flags os scenario.clock scenario.sdb scenario.cache in
  error_message (collected scenario.flags os scenario.sdb) second
  ∧ gjson.String (gjson.Get second "string") = "the device is failing"
  ∧ run.1 = scenario.cache
  ∧ mkLog LevelError "a mandatory SMART command failed" [] ∈ run.2
  ∧ ¬ ∃ r, r ∈ run.2 ∧ message r = "the device is failing".
Proof.
  intros os second run.
  assert (error_message (collected scenario.flags os scenario.sdb) second) as Hsecond.
  { split; [|reflexivity]. apply list_elem_of_In. right. left. reflexivity. }
  split_and!.
  - exact Hsecond.
  - reflexivity.
  - subst run. rewrite readSMARTctl_cache.
    destruct (jsonIsOk_error _ _ Hsecond) as (m' & _ & ->). by rewrite andb_false_r.
  - apply list_elem_of_In. vm_compute. tauto.
  - intros (r & Hr & Hmsg). apply list_elem_of_In in Hr. vm_compute in Hr.
    destruct Hr as [<-|[<-|[<-|[]]]]; discriminate Hmsg.
Qed.

(** Witness for C4, the test of the specification: the entry of time
    100 is still there after a collection that yields a message of
    severity error. *)
Lemma inadmissible_keeps_entry_witness :
  let os := scenario.answers (minijson.write scenario.failed) nil_error in
  scenario.cache !! KDevice scenario.sdb = Some scenario.entry
  ∧ (∃ m, error_message (collected scenario.flags os scenario.sdb) m)
  ∧ (readSMARTctl scenario.flags os scenario.clock scenario.sdb scenario.cache).1
      !! KDevice scenario.sdb = Some scenario.entry.
Proof.
  intros os.
  assert (scenario.cache !! KDevice scenario.sdb = Some scenario.entry) as Hentry
    by apply lookup_insert_eq.
  assert (∃ m, error_message (collected scenario.flags os scenario.sdb) m) as Hbad.
  { exists (gjson.Parse (minijson.write scenario.failure)).
    split; [|reflexivity]. apply list_elem_of_In. left. reflexivity. }
  split; [exact Hentry|]. split; [exact Hbad|].
  destruct (inadmissible_keeps_entry scenario.flags os scenario.clock scenario.sdb
              scenario.cache _ _ Hentry) as (_ & Hmessage & Hkeep).
  apply Hkeep, Hmessage, Hbad.
Defined.

(** Witness for C6, the scenario of the specification: exit status 2
    and the output of a scan. *)
Lemma scan_exit_status_witness :
  let doc := minijson.write scenario.scanned in
  let os := scenario.answers doc (ExitError 2) in
  (readSMARTctlDevices scenario.flags os).1 = gjson.Parse doc
  ∧ gjson.Exists (readSMARTctlDevices scenario.flags os).1 = true.
Proof.
  intros doc os.
  destruct (scan_exit_status scenario.flags os) as [Htwo _].
  destruct (Htwo eq_refl) as (_ & Hexists & Hparsed).
  split; [|exact Hexists].
  apply Hparsed. reflexivity.
Defined.

(** Witness for C7: with the artifact in front the text of a report is
    not valid, without it the report is parsed. *)
Lemma artifact_stripped_witness :
  let doc := minijson.write scenario.healthy in
  let os := scenario.answers (artifact +:+ doc) (ExitError 4) in
  gjson.Valid doc = true
  ∧ gjson.Valid (artifact +:+ doc) = false
  ∧ collected scenario.flags os scenario.sda = gjson.Parse doc
  ∧ gjson.Parse doc ≠ gjson.Parse "{}".
Proof.
  intros doc os.
  split; [reflexivity|]. split; [reflexivity|].
  split; [|discriminate].
  apply (artifact_stripped scenario.flags os scenario.clock scenario.sda ∅ doc);
    reflexivity.
Defined.

(** Witness for C8: a text that is not JSON. *)
Lemma parseJSON_total_idempotent_witness :
  gjson.Valid "Smartctl open device: /dev/sda failed" = false
  ∧ parseJSON "Smartctl open device: /dev/sda failed" = gjson.Parse "{}".
Proof.
  split; [reflexivity|].
  apply (proj1 parseJSON_total_idempotent). reflexivity.
Defined.

(** Witness for C9: [sda] has no entry in the cache of the scenario. *)
Lemma readData_unknown_device_witness :
  smartctlFakeData scenario.flags = false
  ∧ scenario.cache !! KDevice scenario.sda = None
  ∧ readData scenario.flags (scenario.answers EmptyString nil_error) scenario.sda
      scenario.cache
    = (gjson.zero,
       [mkLog LevelWarn "device not found" [("device", ADevice scenario.sda)]]).
Proof.
  assert (scenario.cache !! KDevice scenario.sda = None) as Hnone by reflexivity.
  split; [reflexivity|]. split; [exact Hnone|].
  apply (readData_unknown_device scenario.flags _ scenario.sda scenario.cache
           eq_refl Hnone).
Defined.
End Scenario.

(** * More properties of the code *)
(** ** More about the status code *)

Lemma testbit_low_byte code bit :
  0 ≤ bit < 8 → Z.testbit (Z.land code 255) bit = Z.testbit code bit.
Proof.
  intros Hbit. rewrite Z.land_spec.
  assert (Z.testbit 255 bit = true) as ->; [|by rewrite andb_true_r].
  assert (bit = 0 ∨ bit = 1 ∨ bit = 2 ∨ bit = 3 ∨ bit = 4 ∨ bit = 5 ∨ bit = 6 ∨ bit = 7)
    as [->|[->|[->|[->|[->|[->|[->| ->]]]]]]] by lia; reflexivity.
Qed.

Lemma report_low_byte device code : report device (Z.land code 255) = report device code.
Proof.
  unfold report, status_table. cbn [flat_map fst snd].
  by rewrite !testbit_low_byte by lia.
Qed.

(** X1.  For a positive status code only the low byte counts:
    [resultCodeIsOk] answers and logs for [code] what it answers and logs
    for [code & 255]. *)
Theorem resultCodeIsOk_low_byte device code :
  0 < code →
  resultCodeIsOk device code = resultCodeIsOk device (Z.land code 255).
Proof.
  intros Hpos. rewrite (resultCodeIsOk_positive device code) by done.
  assert (0 ≤ Z.land code 255) as Hnonneg by (apply Z.land_nonneg; lia).
  destruct (decide (Z.land code 255 = 0)) as [Hzero|Hnz].
  - rewrite <- report_low_byte, <- (testbit_low_byte code 0), <- (testbit_low_byte code 1)
      by lia.
    by rewrite Hzero.
  - rewrite (resultCodeIsOk_positive device (Z.land code 255)) by lia.
    by rewrite report_low_byte, !testbit_low_byte by lia.
Qed.

(** Witness for X1: 260 is 256 + 4. *)
Lemma resultCodeIsOk_low_byte_witness :
  0 < 260 ∧ resultCodeIsOk scenario.sda 260 = resultCodeIsOk scenario.sda 4.
Proof.
  assert (0 < 260) as Hpos by lia.
  split; [exact Hpos|].
  exact (resultCodeIsOk_low_byte scenario.sda 260 Hpos).
Defined.

(** The records of the table for a code. *)
Lemma report_elem device code r :
  r ∈ report device code
  ↔ ∃ bit lvl msg, (bit, lvl, msg) ∈ status_table
                   ∧ Z.testbit code bit = true
                   ∧ r = mkLog lvl msg [("device", ADevice device)].
Proof.
  unfold report. rewrite list_elem_of_In, in_flat_map. split.
  - intros ([[bit lvl] msg] & Hrow & Hr). cbn in Hr.
    destruct (Z.testbit code bit) eqn:Hbit; [|done].
    destruct Hr as [<-|[]]. exists bit, lvl, msg.
    by rewrite list_elem_of_In.
  - intros (bit & lvl & msg & Hrow & Hbit & ->).
    exists (bit, lvl, msg). split; [by apply list_elem_of_In|].
    cbn. rewrite Hbit. by left.
Qed.

Lemma status_table_rows bit lvl msg :
  (bit, lvl, msg) ∈ status_table →
  (lvl = LevelError ∧ (bit = 0 ∨ bit = 1)) ∨ (lvl = LevelWarn ∧ 2 ≤ bit ≤ 7).
Proof.
  unfold status_table. rewrite list_elem_of_In. cbn.
  intros [H|[H|[H|[H|[H|[H|[H|[H|[]]]]]]]]]; injection H as <- <- <-;
    first [left; split; [done|lia] | right; split; [done|lia]].
Qed.

(** X2.  [resultCodeIsOk] rejects a code exactly when it logs a record
    at error level; every record it logs is at error or warning level and
    carries the device, and there are at most eight of them. *)
Theorem resultCodeIsOk_error_level device code :
  ((resultCodeIsOk device code).1 = false
     ↔ ∃ r, r ∈ (resultCodeIsOk device code).2 ∧ level r = LevelError)
  ∧ (∀ r, r ∈ (resultCodeIsOk device code).2 →
          (level r = LevelError ∨ level r = LevelWarn)
          ∧ attrs r = [("device", ADevice device)])
  ∧ (length (resultCodeIsOk device code).2 ≤ 8)%nat.
Proof.
  destruct (Z.ltb_spec 0 code) as [Hpos|Hle].
  - rewrite resultCodeIsOk_positive by done. cbn [fst snd]. split_and!.
    + rewrite negb_false_iff, orb_true_iff. split.
      * intros [Hbit|Hbit].
        -- exists (mkLog LevelError msg_bit0 [("device", ADevice device)]).
           split; [|done]. apply report_elem. exists 0, LevelError, msg_bit0.
           split_and!; [|done|done]. apply list_elem_of_In. cbn. tauto.
        -- exists (mkLog LevelError msg_bit1 [("device", ADevice device)]).
           split; [|done]. apply report_elem. exists 1, LevelError, msg_bit1.
           split_and!; [|done|done]. apply list_elem_of_In. cbn. tauto.
      * intros (r & Hr & Hlevel). apply report_elem in Hr
          as (bit & lvl & msg & Hrow & Hbit & ->). cbn in Hlevel. subst lvl.
        destruct (status_table_rows _ _ _ Hrow) as [[_ [->| ->]]|[? _]]; auto.
        done.
    + intros r Hr. apply report_elem in Hr as (bit & lvl & msg & Hrow & Hbit & ->).
      cbn. split; [|done].
      destruct (status_table_rows _ _ _ Hrow) as [[-> _]|[-> _]]; auto.
    + unfold report, status_table. cbn [flat_map fst snd].
      destruct (Z.testbit code 0), (Z.testbit code 1), (Z.testbit code 2),
        (Z.testbit code 3), (Z.testbit code 4), (Z.testbit code 5),
        (Z.testbit code 6), (Z.testbit code 7); cbn; lia.
  - rewrite resultCodeIsOk_nonpositive by done. cbn [fst snd]. split_and!.
    + split; [done|]. intros (r & Hr & _). by apply elem_of_nil in Hr.
    + intros r Hr. by apply elem_of_nil in Hr.
    + cbn. lia.
Qed.

(** ** More about strings *)

Lemma strings_HasPrefix_inv s prefix :
  strings_HasPrefix s prefix = true → ∃ rest, s = prefix +:+ rest.
Proof.
  revert s. induction prefix as [|p prefix IH]; intros s Hs.
  - by exists s.
  - destruct s as [|c s]; [done|]. cbn in Hs.
    apply andb_true_iff in Hs as [Hc Hs]. apply Ascii.eqb_eq in Hc as ->.
    destruct (IH _ Hs) as [rest ->]. by exists rest.
Qed.

Section CollectorMore.
Context `{gjson.Interface}.

(** The loop over the messages either finds no error and logs nothing,
    or stops at an error and logs one record. *)
Lemma jsonIsOk_range_cases ms :
  ((∀ m, m ∈ ms → gjson.String (gjson.Get m "severity") ≠ "error")
   ∧ jsonIsOk_range ms = (true, []))
  ∨ ((∃ m, m ∈ ms ∧ gjson.String (gjson.Get m "severity") = "error")
     ∧ (jsonIsOk_range ms).1 = false
     ∧ length (jsonIsOk_range ms).2 = 1%nat).
Proof.
  induction ms as [|m ms IH].
  - left. split; [|done]. intros m Hm. by apply elem_of_nil in Hm.
  - cbn [jsonIsOk_range].
    destruct (String.eqb_spec (gjson.String (gjson.Get m "severity")) "error") as [He|Hne].
    + right. split; [|done]. exists m. split; [by left|done].
    + destruct IH as [[Hclean Hrun]|[(m' & Hin & Hsev) Hrun]].
      * left. split; [|done].
        intros m' [->|Hm']%elem_of_cons; [done|by apply Hclean].
      * right. split; [|done]. exists m'. split; [by right|done].
Qed.

(** What [readSMARTctl] leaves in the cache, by the test of admission. *)
Lemma readSMARTctl_admitted f os clock device jsonCache :
  (readSMARTctl f os clock device jsonCache).1
  = if admitted f os device
    then <[KDevice device := mkJSONCache (collected f os device) (at_store clock)]> jsonCache
    else jsonCache.
Proof. apply readSMARTctl_cache. Qed.

(** A collection leaves the entries of the other keys alone. *)
Lemma readSMARTctl_other_key f os clock device (jsonCache : gmap Key JSONCache) k :
  k ≠ KDevice device →
  (readSMARTctl f os clock device jsonCache).1 !! k = jsonCache !! k.
Proof.
  intros Hk. rewrite readSMARTctl_admitted. destruct (admitted f os device); [|done].
  by rewrite lookup_insert_ne.
Qed.

(** X6.  The error of the process plays no part in what is stored: two
    runs of the tool with the same output and different errors give the
    same parsed result and the same cache. *)
Theorem readSMARTctl_ignores_exit_code f os1 os2 clock device jsonCache :
  (Output os1 (smartctlPath f) (smartctlArgs f device)).1
  = (Output os2 (smartctlPath f) (smartctlArgs f device)).1 →
  collected f os1 device = collected f os2 device
  ∧ (readSMARTctl f os1 clock device jsonCache).1
    = (readSMARTctl f os2 clock device jsonCache).1.
Proof.
  intros Hout.
  assert (collected f os1 device = collected f os2 device) as Hjson
    by (unfold collected; by rewrite Hout).
  split; [done|]. by rewrite !readSMARTctl_cache, Hjson.
Qed.

(** X5.  [readSMARTctl] changes no entry but the one of its device, and
    removes none. *)
Theorem readSMARTctl_frame f os clock device (jsonCache : gmap Key JSONCache) k :
  (k ≠ KDevice device →
   (readSMARTctl f os clock device jsonCache).1 !! k = jsonCache !! k)
  ∧ (is_Some (jsonCache !! k) →
     is_Some ((readSMARTctl f os clock device jsonCache).1 !! k)).
Proof.
  rewrite readSMARTctl_admitted. destruct (admitted f os device); [|done]. split.
  - intros Hk. by rewrite lookup_insert_ne.
  - intros Hsome. destruct (decide (KDevice device = k)) as [<-|Hne].
    + rewrite lookup_insert_eq. by eexists.
    + by rewrite lookup_insert_ne.
Qed.

(** X7.  Collections for two different devices commute: the cache
    after both is the same in either order. *)
Theorem readSMARTctl_commute f os1 clock1 device1 os2 clock2 device2 jsonCache :
  device1 ≠ device2 →
  (readSMARTctl f os2 clock2 device2
     (readSMARTctl f os1 clock1 device1 jsonCache).1).1
  = (readSMARTctl f os1 clock1 device1
       (readSMARTctl f os2 clock2 device2 jsonCache).1).1.
Proof.
  intros Hne. rewrite !readSMARTctl_admitted.
  destruct (admitted f os1 device1), (admitted f os2 device2); try done.
  apply insert_insert_ne. congruence.
Qed.

(** X8.  Two collections for one device: when the second is admitted,
    the cache is the one the second alone would give, and the entry of
    the device is the result of the second (the last write wins). *)
Theorem readSMARTctl_last_write_wins f os1 clock1 os2 clock2 device jsonCache :
  admitted f os2 device = true →
  (readSMARTctl f os2 clock2 device
     (readSMARTctl f os1 clock1 device jsonCache).1).1
  = (readSMARTctl f os2 clock2 device jsonCache).1
  ∧ (readSMARTctl f os2 clock2 device
       (readSMARTctl f os1 clock1 device jsonCache).1).1 !! KDevice device
    = Some (mkJSONCache (collected f os2 device) (at_store clock2)).
Proof.
  intros Hadm. rewrite !readSMARTctl_admitted, Hadm.
  split.
  - destruct (admitted f os1 device); [|done]. apply insert_insert_eq.
  - apply lookup_insert_eq.
Qed.

(** X9.  After an admitted collection the device is stale exactly when
    the time is past the time of the store plus the interval; with an
    interval that is not negative it is fresh at the time of the
    store. *)
Theorem readSMARTctl_fresh f os clock device jsonCache now :
  admitted f os device = true →
  (stale f (readSMARTctl f os clock device jsonCache).1 device now = true
     ↔ at_store clock + smartctlInterval f < now)
  ∧ (0 ≤ smartctlInterval f →
     stale f (readSMARTctl f os clock device jsonCache).1 device (at_store clock) = false).
Proof.
  intros Hadm. rewrite !readSMARTctl_admitted, Hadm.
  unfold stale, Time_After, Time_Add. rewrite lookup_insert_eq. cbn [LastCollect].
  split; [apply Z.ltb_lt|]. intros Hint. apply Z.ltb_ge. lia.
Qed.

(** X10.  Outside the fake-data mode, [readData] after [readSMARTctl]
    returns the result just collected, with no log, when the collection
    was admitted, and what it returned before otherwise; for any other
    device it returns what it returned before. *)
Theorem readData_after_readSMARTctl f os clock device jsonCache os' device' :
  smartctlFakeData f = false →
  readData f os' device (readSMARTctl f os clock device jsonCache).1
  = (if admitted f os device then (collected f os device, [])
     else readData f os' device jsonCache)
  ∧ (device' ≠ device →
     readData f os' device' (readSMARTctl f os clock device jsonCache).1
     = readData f os' device' jsonCache).
Proof.
  intros Hfake. unfold readData. rewrite Hfake, !readSMARTctl_admitted.
  destruct (admitted f os device); [|done]. split.
  - by rewrite lookup_insert_eq.
  - intros Hne. rewrite lookup_insert_ne; [done|congruence].
Qed.

(** X11.  The entry that [init] stores under the empty string is never
    seen by a lookup of a device: staleness and [readData] are the same
    with and without it, every device is stale in the cache [init] makes
    from the empty one, and a collection leaves the entry of [init] in
    place. *)
Theorem init_entry f os clock device (jsonCache : gmap Key JSONCache) now os' :
  init jsonCache !! KDevice device = jsonCache !! KDevice device
  ∧ stale f (init jsonCache) device now = stale f jsonCache device now
  ∧ readData f os' device (init jsonCache) = readData f os' device jsonCache
  ∧ stale f (init ∅) device now = true
  ∧ (readSMARTctl f os clock device (init jsonCache)).1 !! KString EmptyString
    = Some (mkJSONCache gjson.zero zeroTime).
Proof.
  assert (init jsonCache !! KDevice device = jsonCache !! KDevice device) as Hlook
    by (unfold init; by rewrite lookup_insert_ne).
  split_and!.
  - done.
  - unfold stale. by rewrite Hlook.
  - unfold readData. by rewrite Hlook.
  - unfold stale, init. by rewrite lookup_insert_ne, lookup_empty.
  - rewrite readSMARTctl_other_key by done.
    apply lookup_insert_eq.
Qed.

(** X14.  What [readSMARTctl] parses: when the output starts with the
    artifact, the output without this one occurrence of it; otherwise the
    whole output. *)
Theorem collected_cases f os device :
  let out := (Output os (smartctlPath f) (smartctlArgs f device)).1 in
  (∃ rest, out = artifact +:+ rest ∧ collected f os device = parseJSON rest)
  ∨ ((∀ rest, out ≠ artifact +:+ rest) ∧ collected f os device = parseJSON out).
Proof.
  intros out. unfold collected. fold out. unfold strings_TrimPrefix.
  destruct (strings_HasPrefix out artifact) eqn:Hprefix.
  - left. destruct (strings_HasPrefix_inv _ _ Hprefix) as [rest Hrest].
    exists rest. split; [done|]. by rewrite Hrest, string_from_app.
  - right. split; [|done]. intros rest Hrest.
    by rewrite Hrest, strings_HasPrefix_app in Hprefix.
Qed.
End CollectorMore.

(** The pieces of a text with a separator in it are the pieces of what
    is before it and the pieces of what is after it. *)
Lemma strings_Split_app a b sep :
  strings_Split (a +:+ String sep b) sep = strings_Split a sep ++ strings_Split b sep.
Proof.
  induction a as [|c a IH].
  - change (EmptyString +:+ String sep b) with (String sep b).
    cbn. by rewrite Ascii.eqb_refl.
  - change (String c a +:+ String sep b) with (String c (a +:+ String sep b)).
    cbn [strings_Split]. rewrite IH.
    destruct (Ascii.eqb c sep); [done|].
    pose proof (strings_Split_nonempty a sep) as Hne.
    by destruct (strings_Split a sep).
Qed.

Lemma strings_Split_none s sep :
  string_elem sep s = false → strings_Split s sep = [s].
Proof.
  induction s as [|c s IH]; [done|]. cbn.
  intros [Hc Hs]%orb_false_iff. by rewrite Hc, IH.
Qed.

(** The last piece is what follows the last separator. *)
Lemma strings_Split_last dir base sep :
  string_elem sep base = false →
  last (strings_Split (dir +:+ String sep base) sep) = Some base
  ∧ last (strings_Split base sep) = Some base.
Proof.
  intros Hbase. rewrite strings_Split_app, last_app.
  by rewrite strings_Split_none.
Qed.

Section CollectorLaws.
Context `{gjson.Laws}.

(** The answer and the log of [jsonIsOk], by whether a message has
    severity error. *)
Lemma jsonIsOk_verdict json :
  ((∃ m, error_message json m)
   ∧ (jsonIsOk json).1 = false ∧ length (jsonIsOk json).2 = 1%nat)
  ∨ ((¬ ∃ m, error_message json m) ∧ jsonIsOk json = (true, [])).
Proof.
  unfold jsonIsOk, error_message, messages.
  destruct (gjson.Exists (gjson.Get json "smartctl.messages")) eqn:Hex.
  - destruct (jsonIsOk_range_cases (gjson.Array (gjson.Get json "smartctl.messages")))
      as [[Hclean Hrun]|[Herr Hrun]].
    + right. split; [|done]. intros (m & Hin & Hsev). by apply Hclean in Hin.
    + by left.
  - right. split; [|done]. rewrite gjson.Array_missing by done.
    intros (m & Hin & _). by apply elem_of_nil in Hin.
Qed.

(** X3.  [jsonIsOk] rejects a result exactly when its message list has
    an entry whose severity is the string error; it logs nothing when it
    accepts and one record when it rejects. *)
Theorem jsonIsOk_iff json :
  ((jsonIsOk json).1 = false ↔ ∃ m, error_message json m)
  ∧ ((jsonIsOk json).1 = true → (jsonIsOk json).2 = [])
  ∧ ((jsonIsOk json).1 = false → length (jsonIsOk json).2 = 1%nat).
Proof.
  destruct (jsonIsOk_verdict json) as [(Herr & Hrun & Hlen)|[Hclean Hrun]];
    rewrite Hrun; cbn [fst snd].
  - split_and!; done.
  - split_and!; done.
Qed.

(** X4.  A collection is admitted exactly when the status code is not
    positive or has bits 0 and 1 clear, and no message has severity
    error.  An admitted collection stores the parsed result with the time
    of the store under the device; any other leaves the cache as it
    was. *)
Theorem admitted_iff f os clock device jsonCache :
  let json := collected f os device in
  (admitted f os device = true
     ↔ (exit_status json ≤ 0
        ∨ (Z.testbit (exit_status json) 0 = false ∧ Z.testbit (exit_status json) 1 = false))
       ∧ ¬ ∃ m, error_message json m)
  ∧ (admitted f os device = true →
     (readSMARTctl f os clock device jsonCache).1
     = <[KDevice device := mkJSONCache json (at_store clock)]> jsonCache)
  ∧ (admitted f os device = false →
     (readSMARTctl f os clock device jsonCache).1 = jsonCache).
Proof.
  intros json. split_and!.
  - unfold admitted. fold json. rewrite andb_true_iff.
    assert ((jsonIsOk json).1 = true ↔ ¬ ∃ m, error_message json m) as ->.
    { destruct (jsonIsOk_verdict json) as [(Herr & Hrun & _)|[Hclean Hrun]];
        rewrite Hrun; cbn [fst]; split; done. }
    assert ((resultCodeIsOk device (exit_status json)).1 = true
            ↔ exit_status json ≤ 0
              ∨ (Z.testbit (exit_status json) 0 = false
                 ∧ Z.testbit (exit_status json) 1 = false)) as ->; [|done].
    destruct (Z.ltb_spec 0 (exit_status json)) as [Hpos|Hle].
    + rewrite resultCodeIsOk_positive by done. cbn [fst].
      rewrite negb_true_iff, orb_false_iff. split; [by right|].
      intros [Hle|Hbits]; [lia|done].
    + rewrite resultCodeIsOk_nonpositive by done. cbn [fst]. split; [by left|done].
  - intros Hadm. by rewrite readSMARTctl_admitted, Hadm.
  - intros Hadm. by rewrite readSMARTctl_admitted, Hadm.
Qed.

(** X13.  [parseJSON] hands only valid text to [gjson.Parse], so its
    result, the result a collection works on, the result of
    [readFakeSMARTctl] and the result of [readData] in the fake-data mode
    always exist: none is the zero result. *)
Theorem parsed_results_exist f os device jsonCache s :
  (∃ s', gjson.Valid s' = true ∧ parseJSON s = gjson.Parse s')
  ∧ gjson.Exists (parseJSON s) = true
  ∧ gjson.Exists (collected f os device) = true
  ∧ gjson.Exists (readFakeSMARTctl os device).1 = true
  ∧ (smartctlFakeData f = true → gjson.Exists (readData f os device jsonCache).1 = true).
Proof.
  assert (∀ t, ∃ s', gjson.Valid s' = true ∧ parseJSON t = gjson.Parse s') as Hvalid.
  { intros t. destruct (gjson.Valid t) eqn:Ht.
    - exists t. split; [done|]. by apply parseJSON_valid.
    - exists "{}". split; [apply gjson.Valid_object|]. by apply parseJSON_invalid. }
  assert (∀ t, gjson.Exists (parseJSON t) = true) as Hexists.
  { intros t. destruct (Hvalid t) as (s' & Hs' & ->). by apply gjson.Exists_Parse. }
  assert (gjson.Exists (readFakeSMARTctl os device).1 = true) as Hfake.
  { unfold readFakeSMARTctl.
    destruct (ReadFile os _) as [jsonFile err]. cbn.
    destruct (negb (is_nil err)); cbn; apply Hexists. }
  split_and!; [apply Hvalid|apply Hexists|apply Hexists|done|].
  intros Hmode. unfold readData. by rewrite Hmode.
Qed.

(** X16.  The scanner returns the zero result exactly when the tool
    failed other than with exit status 2, and exactly when it logs a
    warning; otherwise it returns what [parseJSON] makes of the output.
    A run without an error logs the debug record alone. *)
Theorem readSMARTctlDevices_zero_iff f os :
  let out := (Output os (smartctlPath f) (scanArgs f)).1 in
  let err := (Output os (smartctlPath f) (scanArgs f)).2 in
  (gjson.Exists (readSMARTctlDevices f os).1 = false
     ↔ err ≠ nil_error ∧ err ≠ ExitError 2)
  ∧ (gjson.Exists (readSMARTctlDevices f os).1 = false
     ↔ ∃ r, r ∈ (readSMARTctlDevices f os).2 ∧ level r = LevelWarn)
  ∧ (gjson.Exists (readSMARTctlDevices f os).1 = true →
     (readSMARTctlDevices f os).1 = parseJSON out)
  ∧ (err = nil_error →
     readSMARTctlDevices f os
     = (parseJSON out, [mkLog LevelDebug "Scanning for devices" []])).
Proof.
  intros out err. subst out err. unfold readSMARTctlDevices.
  destruct (Output os (smartctlPath f) (scanArgs f)) as [out err]. cbn [fst snd].
  pose proof (parseJSON_Exists out) as Hout.
  pose proof gjson.Exists_zero as Hzero.
  destruct err as [|code|reason]; cbn.
  - rewrite Hout. split_and!; try done.
    + split; [done|]. by intros [? _].
    + split; [done|]. intros (r & Hr & Hlevel).
      apply list_elem_of_singleton in Hr as ->. done.
  - destruct (Z.eqb_spec code 2) as [->|Hcode]; cbn.
    + rewrite Hout. split_and!; try done.
      * split; [done|]. by intros [_ ?].
      * split; [done|]. intros (r & Hr & Hlevel).
        repeat (apply elem_of_cons in Hr as [->|Hr]; [done|]).
        by apply elem_of_nil in Hr.
    + rewrite Hzero. split_and!; try done.
      * split; [|done]. intros _. split; [done|]. congruence.
      * split; [|done]. intros _.
        exists (mkLog LevelWarn "S.M.A.R.T. output reading error"
                  [("err", AErr (ExitError code))]).
        split; [|done].
        apply elem_of_cons. right. apply elem_of_cons. right. by left.
  - rewrite Hzero. split_and!; try done.
    + split; [|done]. intros _.
      exists (mkLog LevelWarn "S.M.A.R.T. output reading error"
                [("err", AErr (OtherError reason))]).
      split; [|done]. apply elem_of_cons. right. by left.
Qed.

(** X12.  [readFakeSMARTctl] reads the file [debug/<base>.json], where
    [<base>] is what follows the last slash of the name of the device
    (the whole name when it has no slash).  It returns what [parseJSON]
    makes of the file, and the empty object with an error record when the
    file cannot be read. *)
Theorem readFakeSMARTctl_file os device dir base :
  string_elem "/" base = false →
  Name device = base ∨ Name device = dir +:+ String "/" base →
  let filename := "debug/" +:+ base +:+ ".json" in
  readFakeSMARTctl os device
  = (if is_nil (ReadFile os filename).2 then parseJSON (ReadFile os filename).1
     else gjson.Parse "{}",
     mkLog LevelDebug "Read fake S.M.A.R.T. data from json" [("filename", AString filename)]
     :: if is_nil (ReadFile os filename).2 then []
        else [mkLog LevelError "Fake S.M.A.R.T. data reading error"
                [("err", AErr (ReadFile os filename).2)]]).
Proof.
  intros Hbase Hname filename. unfold readFakeSMARTctl.
  assert (last (strings_Split (Name device) "/") = Some base) as ->.
  { destruct (strings_Split_last dir base "/" Hbase) as [Hdir Hplain].
    by destruct Hname as [-> | ->]. }
  change (default EmptyString (Some base)) with base. subst filename.
  destruct (ReadFile os ("debug/" +:+ base +:+ ".json")) as [jsonFile err].
  cbn [fst snd].
  rewrite (parseJSON_valid "{}") by apply gjson.Valid_object.
  by destruct err.
Qed.
End CollectorLaws.

Lemma fold_left_app_flat_map {A B} (g : A → list B) l init :
  fold_left (λ acc d, acc ++ g d) l init = init ++ flat_map g l.
Proof.
  revert init. induction l as [|d l IH]; intros init; cbn.
  - by rewrite app_nil_r.
  - by rewrite IH, <- app_assoc.
Qed.

Lemma device_args_length (l : list string) :
  length (flat_map (λ d, ["--device"; d]) l) = (2 * length l)%nat.
Proof. induction l as [|d l IH]; [done|]. cbn [flat_map app length]. rewrite IH. lia. Qed.

Lemma device_args_lookup (l : list string) i d :
  l !! i = Some d →
  flat_map (λ d, ["--device"; d]) l !! (2 * i)%nat = Some "--device"
  ∧ flat_map (λ d, ["--device"; d]) l !! S (2 * i) = Some d.
Proof.
  revert i. induction l as [|d' l IH]; intros i Hi; [done|].
  destruct i as [|i].
  - injection Hi as ->. done.
  - replace (2 * S i)%nat with (S (S (2 * i))) by lia.
    cbn [flat_map app]. apply (IH i Hi).
Qed.

(** X15.  The loop that builds the arguments of the scan gives
    [--json --scan] followed by [--device d] for every configured type
    [d], in order: the type number [i] is at position [3 + 2 i], after
    [--device]. *)
Theorem scanArgs_closed_form f :
  scanArgs f
  = ["--json"; "--scan"] ++ flat_map (λ d, ["--device"; d]) (smartctlScanDeviceTypes f)
  ∧ length (scanArgs f) = (2 + 2 * length (smartctlScanDeviceTypes f))%nat
  ∧ (∀ i d, smartctlScanDeviceTypes f !! i = Some d →
            scanArgs f !! (2 + 2 * i)%nat = Some "--device"
            ∧ scanArgs f !! (3 + 2 * i)%nat = Some d).
Proof.
  assert (scanArgs f
          = ["--json"; "--scan"]
            ++ flat_map (λ d, ["--device"; d]) (smartctlScanDeviceTypes f)) as Heq
    by apply fold_left_app_flat_map.
  rewrite Heq. clear Heq. split_and!; [done| |].
  - rewrite length_app, device_args_length. done.
  - intros i d Hi.
    rewrite !lookup_app_r by (cbn [length]; lia). cbn [length].
    replace (2 + 2 * i - 2)%nat with (2 * i)%nat by lia.
    replace (3 + 2 * i - 2)%nat with (S (2 * i)) by lia.
    by apply device_args_lookup.
Qed.

Section RefreshMore.
Context `{gjson.Interface}.

(** A step removes no entry and no log record. *)
Lemma step_keeps f r e r' k :
  step f r e r' →
  (is_Some (jsonCache r !! k) → is_Some (jsonCache r' !! k))
  ∧ ∃ l, logs r' = logs r ++ l.
Proof.
  destruct 1; cbn [jsonCache logs]; try (split; [done|by exists []; rewrite app_nil_r]).
  split; [|by eexists].
  rewrite readSMARTctl_admitted. destruct (admitted _ _ _); [|done].
  intros Hsome. destruct (decide (KDevice device = k)) as [<-|Hne].
  - rewrite lookup_insert_eq. by eexists.
  - by rewrite lookup_insert_ne.
Qed.

Lemma steps_keep f r es r' k :
  steps f r es r' →
  (is_Some (jsonCache r !! k) → is_Some (jsonCache r' !! k))
  ∧ ∃ l, logs r' = logs r ++ l.
Proof.
  induction 1 as [r|r1 e r2 es r3 Hstep _ [IHc [l2 IHl]]].
  - split; [done|]. exists []. by rewrite app_nil_r.
  - destruct (step_keeps _ _ _ _ k Hstep) as [Hc [l1 Hl]]. split; [auto|].
    exists (l1 ++ l2). by rewrite IHl, Hl, app_assoc.
Qed.

(** A step changes the entry of the device whose collection finishes,
    and nothing else; without such a step the log is the same. *)
Lemma steps_untouched f r es r' :
  steps f r es r' →
  (∀ k, (∀ d, k = KDevice d → d ∉ finished es) → jsonCache r' !! k = jsonCache r !! k)
  ∧ (finished es = [] → jsonCache r' = jsonCache r ∧ logs r' = logs r).
Proof.
  induction 1 as [r|r1 e r2 es r3 Hstep _ [IHk IHnone]]; [done|].
  destruct Hstep; cbn [finished jsonCache logs] in *; try done.
  split; [|done].
  intros k Hk. rewrite IHk.
  - rewrite readSMARTctl_admitted. destruct (admitted _ _ _); [|done].
    apply lookup_insert_ne. intros <-. apply (Hk device eq_refl). by left.
  - intros d -> Hd. apply (Hk d eq_refl). by right.
Qed.

Lemma refreshAllDevices_start f devices jsonCache0 :
  jsonCache (refreshAllDevices f devices jsonCache0) = jsonCache0
  ∧ logs (refreshAllDevices f devices jsonCache0) = [].
Proof. unfold refreshAllDevices. by destruct (smartctlFakeData f). Qed.

(** X17.  No run of [refreshAllDevices] removes an entry of the cache:
    a key that has an entry at the call has one in every state the run
    reaches. *)
Theorem refreshAllDevices_keeps_entries f devices jsonCache0 es r k :
  steps f (refreshAllDevices f devices jsonCache0) es r →
  is_Some (jsonCache0 !! k) → is_Some (jsonCache r !! k).
Proof.
  intros Hsteps. destruct (steps_keep _ _ _ _ k Hsteps) as [Hkeep _].
  by rewrite (proj1 (refreshAllDevices_start f devices jsonCache0)) in Hkeep.
Qed.

(** X19.  In every state a run of [refreshAllDevices] reaches, the
    entry of a device for which no collection has been started, and every
    entry under a string, is the one of the call; as long as no
    collection has been started the cache is the one of the call and
    nothing is logged. *)
Theorem refreshAllDevices_touches_started_only f devices jsonCache0 es r :
  steps f (refreshAllDevices f devices jsonCache0) es r →
  (∀ device, device ∉ started es →
             jsonCache r !! KDevice device = jsonCache0 !! KDevice device)
  ∧ (∀ s, jsonCache r !! KString s = jsonCache0 !! KString s)
  ∧ (started es = [] → jsonCache r = jsonCache0 ∧ logs r = []).
Proof.
  intros Hsteps.
  destruct (steps_untouched _ _ _ _ Hsteps) as [_ Hnone].
  destruct (refreshAllDevices_start f devices jsonCache0) as [Hc Hl].
  rewrite Hc, Hl in Hnone.
  destruct (smartctlFakeData f) eqn:Hfake.
  - destruct (refreshAllDevices_fake_data _ _ _ _ _ Hfake Hsteps) as [-> ->].
    cbn. split_and!; done.
  - unfold refreshAllDevices in Hsteps. rewrite Hfake in Hsteps.
    pose proof (Inv_steps _ _ _ _ _ _ _ (Inv_init f devices jsonCache0) Hsteps) as HI.
    cbn [app] in HI. destruct HI as [_ Hst _ Hcache _ _]. split_and!.
    + intros device Hdev. apply Hcache. by intros d [= <-].
    + intros s. by apply Hcache.
    + intros Hnil. apply Hnone. rewrite Hnil in Hst.
      apply Permutation_nil in Hst. by apply app_eq_nil in Hst as [? _].
Qed.

(** X20.  In every state a run of [refreshAllDevices] reaches, the
    counter of the wait group is the number of collections in flight, the
    collections started are those finished and those in flight, there are
    at most as many in flight as devices in the list, and none is in
    flight once the function has returned. *)
Theorem refreshAllDevices_wait_group f devices jsonCache0 es r :
  steps f (refreshAllDevices f devices jsonCache0) es r →
  wg r = length (goroutines r)
  ∧ started es ≡ₚ finished es ++ goroutines r
  ∧ (wg r ≤ length devices)%nat
  ∧ (control r = Returned → goroutines r = []).
Proof.
  intros Hsteps. destruct (smartctlFakeData f) eqn:Hfake.
  - destruct (refreshAllDevices_fake_data _ _ _ _ _ Hfake Hsteps) as [-> ->].
    cbn. split_and!; [done|done|lia|done].
  - unfold refreshAllDevices in Hsteps. rewrite Hfake in Hsteps.
    pose proof (Inv_steps _ _ _ _ _ _ _ (Inv_init f devices jsonCache0) Hsteps) as HI.
    cbn [app] in HI. destruct HI as [Hwg Hst Hloop _ _ Hret].
    assert (length (goroutines r) ≤ length devices)%nat as Hbound.
    { assert (length (started es) ≤ length (tested es))%nat as Hle.
      { rewrite started_tested, !length_fmap. apply length_filter. }
      apply Permutation_length in Hst. rewrite length_app in Hst.
      rewrite Hloop, length_app, !length_fmap. lia. }
    split_and!; [done|done|lia|].
    intros Hctl. destruct (Hret Hctl) as [Hzero _].
    apply length_zero_iff_nil. by rewrite <- Hwg.
Qed.

(** X18.  With an empty list of devices and outside the fake-data
    mode, the only run to the return is the end of the loop followed by
    the return of the wait; the cache is unchanged and nothing is
    logged. *)
Theorem refreshAllDevices_no_devices f jsonCache0 es r :
  smartctlFakeData f = false →
  steps f (refreshAllDevices f [] jsonCache0) es r →
  control r = Returned →
  es = [LoopDone; WaitDone] ∧ r = mkRun Returned 0 [] jsonCache0 [].
Proof.
  intros Hfake Hsteps Hret. unfold refreshAllDevices in Hsteps. rewrite Hfake in Hsteps.
  inversion Hsteps as [|r1 e1 r2 es1 r3 Hstep1 Hrest1]; subst; [done|].
  inversion Hstep1; subst.
  inversion Hrest1 as [|r1 e2 r2 es2 r3 Hstep2 Hrest2]; subst; [done|].
  inversion Hstep2; subst.
  inversion Hrest2 as [|r1 e3 r2 es3 r3 Hstep3 Hrest3]; subst; [done|].
  inversion Hstep3.
Qed.
End RefreshMore.

(** ** The log of a collection, and collections that run together *)

Section CollectorLogs.
Context `{gjson.Interface}.

Lemma resultCodeIsOk_records device code r :
  r ∈ (resultCodeIsOk device code).2 → attrs r = [("device", ADevice device)].
Proof.
  destruct (Z.ltb_spec 0 code) as [Hpos|Hle].
  - rewrite resultCodeIsOk_positive by done. cbn [snd].
    intros (bit & lvl & msg & _ & _ & ->)%report_elem. done.
  - rewrite resultCodeIsOk_nonpositive by done. intros Hr. by apply elem_of_nil in Hr.
Qed.

Lemma jsonIsOk_range_records ms r :
  r ∈ (jsonIsOk_range ms).2 → level r = LevelError.
Proof.
  induction ms as [|m ms IH]; cbn [jsonIsOk_range].
  - intros Hr. by apply elem_of_nil in Hr.
  - destruct (String.eqb _ _); [|done]. cbn.
    intros Hr. by apply list_elem_of_singleton in Hr as ->.
Qed.

Lemma jsonIsOk_records json r : r ∈ (jsonIsOk json).2 → level r = LevelError.
Proof.
  unfold jsonIsOk. destruct (gjson.Exists _).
  - apply jsonIsOk_range_records.
  - intros Hr. by apply elem_of_nil in Hr.
Qed.

(** X21.  [readSMARTctl] logs the warning about the output of the tool
    exactly when the process returned an error, whether the result is
    admitted or not; its log starts with the record of the call and ends
    with the record of the duration. *)
Theorem readSMARTctl_warns_iff_error f os clock device jsonCache :
  let err := (Output os (smartctlPath f) (smartctlArgs f device)).2 in
  (mkLog LevelWarn "S.M.A.R.T. output reading"
     [("err", AErr err); ("device", ADevice device)]
     ∈ (readSMARTctl f os clock device jsonCache).2
   ↔ err ≠ nil_error)
  ∧ head (readSMARTctl f os clock device jsonCache).2
    = Some (mkLog LevelDebug "Calling smartctl with args"
              [("args", AString (strings_Join (smartctlArgs f device) " "))])
  ∧ last (readSMARTctl f os clock device jsonCache).2
    = Some (mkLog LevelDebug "Collected S.M.A.R.T. json data"
              [("device", ADevice device);
               ("duration", ADuration (at_log clock - at_start clock))]).
Proof.
  intros err. rewrite readSMARTctl_logs. fold err. split_and!.
  - rewrite elem_of_cons, !elem_of_app. split.
    + intros [Heq|[Hw|[Hrc|[Hjs|Hend]]]]; try done.
      * destruct err; [by apply elem_of_nil in Hw|done..].
      * by apply resultCodeIsOk_records in Hrc.
      * by apply jsonIsOk_records in Hjs.
      * by apply list_elem_of_singleton in Hend.
    + intros Herr. right. left. destruct err; [done|by left..].
  - done.
  - by rewrite last_cons, !app_assoc, last_snoc.
Qed.
End CollectorLogs.

Section Isolation.
Context `{gjson.Interface}.

(** The collections started are distinct when the devices are. *)
Lemma Inv_started_NoDup f devices cache0 es r :
  NoDup devices → Inv f devices cache0 es r → NoDup (started es).
Proof.
  intros Hnodup HI. pose proof (inv_loop _ _ _ _ _ HI) as Hloop.
  rewrite Hloop in Hnodup. apply NoDup_app in Hnodup as [Hnodup _].
  eapply sublist_NoDup; [exact Hnodup|].
  rewrite started_tested. do 2 apply fmap_sublist. apply sublist_filter.
Qed.

Lemma answered_steps f r es cs r' : answered f r es cs r' → steps f r es r'.
Proof.
  induction 1 as [r|r1 e r2 es cs r3 Hstep _ _ IH|ctl n g1 device g2 c l os clock es cs r3 _ IH].
  - apply steps_refl.
  - by eapply steps_step.
  - eapply steps_step; [apply step_goroutine|exact IH].
Qed.

Lemma steps_answered f r es r' : steps f r es r' → ∃ cs, answered f r es cs r'.
Proof.
  induction 1 as [r|r1 e r2 es r3 Hstep _ [cs IH]].
  - exists []. apply answered_refl.
  - destruct Hstep as [device rest n g c l now Hstale
                      |device rest n g c l now Hstale
                      |n g c l
                      |ctl n g1 device g2 c l os clock
                      |g c l].
    + exists cs. eapply answered_other; [by apply step_go|done|exact IH].
    + exists cs. eapply answered_other; [by apply step_skip|done|exact IH].
    + exists cs. eapply answered_other; [apply step_loop_done|done|exact IH].
    + exists ((device, os, clock) :: cs). by apply answered_collected.
    + exists cs. eapply answered_other; [apply step_wait|done|exact IH].
Qed.

(** A step that finishes no collection leaves the cache as it is. *)
Lemma Alone_other f cache0 es cs r e r' :
  Alone f cache0 es cs r → step f r e r' → (∀ device, e ≠ Collected device) →
  Alone f cache0 (es ++ [e]) cs r'.
Proof.
  intros [Hcs Hun Hentry] Hstep Hother.
  destruct Hstep; try (by exfalso; eapply Hother);
    split; rewrite ?finished_app; cbn [finished jsonCache] in *;
    rewrite ?app_nil_r; done.
Qed.

(** A collection that finishes, for a device none has finished for. *)
Lemma Alone_collected f cache0 es cs ctl n g1 device g2 c l os clock :
  device ∉ finished es →
  Alone f cache0 es cs (mkRun ctl (S n) (g1 ++ device :: g2) c l) →
  Alone f cache0 (es ++ [Collected device]) (cs ++ [(device, os, clock)])
    (mkRun ctl n (g1 ++ g2)
       (readSMARTctl f os clock device c).1
       (l ++ (readSMARTctl f os clock device c).2)).
Proof.
  intros Hnew [Hcs Hun Hentry]. cbn [jsonCache] in *.
  split; rewrite ?finished_app; cbn [finished jsonCache].
  - by rewrite !fmap_app, Hcs.
  - intros k Hk. rewrite readSMARTctl_other_key.
    + apply Hun. intros d -> Hd. apply (Hk d eq_refl). apply elem_of_app. by left.
    + intros ->. apply (Hk device eq_refl). apply elem_of_app. right. by left.
  - intros d os' clock' [Hd|Hd]%elem_of_app.
    + rewrite readSMARTctl_other_key; [by apply Hentry|].
      intros [= ->]. apply Hnew. rewrite <- Hcs.
      apply list_elem_of_fmap. exists (device, os'). split; [done|].
      apply list_elem_of_fmap. by exists (device, os', clock').
    + apply list_elem_of_singleton in Hd as [= -> -> ->].
      rewrite !readSMARTctl_admitted. destruct (admitted f os device).
      * by rewrite !lookup_insert_eq.
      * apply Hun. by intros d [= <-].
Qed.

Lemma Alone_answered f devices cache0 es0 cs0 r0 es cs r :
  NoDup devices →
  Inv f devices cache0 es0 r0 → Alone f cache0 es0 cs0 r0 → answered f r0 es cs r →
  Inv f devices cache0 (es0 ++ es) r ∧ Alone f cache0 (es0 ++ es) (cs0 ++ cs) r.
Proof.
  intros Hnodup HI HA Hrun. revert es0 cs0 HI HA.
  induction Hrun as [r|r1 e r2 es cs r3 Hstep Hother _ IH
                    |ctl n g1 device g2 c l os clock es cs r3 _ IH];
    intros es0 cs0 HI HA.
  - by rewrite !app_nil_r.
  - rewrite cons_middle, app_assoc. apply IH.
    + by eapply Inv_step.
    + by eapply Alone_other.
  - rewrite cons_middle, app_assoc, (cons_middle _ cs0 cs), app_assoc. apply IH.
    + eapply Inv_step; [exact HI|apply step_goroutine].
    + apply Alone_collected; [|exact HA].
      pose proof (Inv_started_NoDup _ _ _ _ _ Hnodup HI) as Hstarted.
      rewrite (inv_started _ _ _ _ _ HI) in Hstarted. cbn [goroutines] in Hstarted.
      apply NoDup_app in Hstarted as (_ & Hdisj & _).
      intros Hin. apply (Hdisj device Hin). apply elem_of_app. right. by left.
Qed.

(** X22.  Collections of distinct devices do not disturb each other.
    Every run of [refreshAllDevices] is a run in which each finished
    collection got some answers of the operating system and the clock;
    in every state such a run reaches, no device has been collected
    twice, and the entry of a device whose collection has finished is the
    entry that this collection, with the answers it got, would have left
    had it run alone on the cache of the call: its result with the time
    of its store when it was admitted, the entry of the call when it was
    not. *)
Theorem refreshAllDevices_isolation f devices jsonCache0 :
  smartctlFakeData f = false →
  NoDup devices →
  (∀ es r, steps f (refreshAllDevices f devices jsonCache0) es r →
           ∃ cs, answered f (refreshAllDevices f devices jsonCache0) es cs r)
  ∧ ∀ es cs r,
      answered f (refreshAllDevices f devices jsonCache0) es cs r →
      steps f (refreshAllDevices f devices jsonCache0) es r
      ∧ cs.*1.*1 = finished es
      ∧ NoDup (finished es)
      ∧ ∀ device os clock, (device, os, clock) ∈ cs →
          jsonCache r !! KDevice device
          = (readSMARTctl f os clock device jsonCache0).1 !! KDevice device
          ∧ jsonCache r !! KDevice device
            = if admitted f os device
              then Some (mkJSONCache (collected f os device) (at_store clock))
              else jsonCache0 !! KDevice device.
Proof.
  intros Hfake Hnodup. split; [intros es r; apply steps_answered|].
  intros es cs r Hrun. split; [by eapply answered_steps|].
  unfold refreshAllDevices in Hrun. rewrite Hfake in Hrun.
  pose proof (Inv_init f devices jsonCache0) as Hinit.
  assert (Alone f jsonCache0 [] [] (mkRun (Looping devices) 0 [] jsonCache0 [])) as HA0.
  { split; [done|done|]. intros d os clock Hd. by apply elem_of_nil in Hd. }
  destruct (Alone_answered _ _ _ _ _ _ _ _ _ Hnodup Hinit HA0 Hrun) as [HI [Hcs _ Hentry]].
  cbn [app] in *. split_and!.
  - exact Hcs.
  - pose proof (Inv_started_NoDup _ _ _ _ _ Hnodup HI) as Hstarted.
    rewrite (inv_started _ _ _ _ _ HI) in Hstarted.
    by apply NoDup_app in Hstarted as [? _].
  - intros device os clock Hin. pose proof (Hentry _ _ _ Hin) as Heq.
    split; [exact Heq|]. rewrite Heq, readSMARTctl_admitted.
    destruct (admitted f os device); [apply lookup_insert_eq|done].
Qed.
End Isolation.

(** ** The extra properties in the scenario *)

Section MoreScenario.
#[local] Existing Instance minijson.interface.
#[local] Existing Instance minijson_laws.

(** A run of the scenario: [sda] is collected, [sdb] is skipped. *)
Lemma scenario_run :
  steps scenario.flags
    (refreshAllDevices scenario.flags [scenario.sda; scenario.sdb] scenario.cache)
    [Checked scenario.sda 130 true; Checked scenario.sdb 130 false; LoopDone;
     Collected scenario.sda; WaitDone]
    (mkRun Returned 0 []
       (readSMARTctl scenario.flags
          (scenario.answers (minijson.write scenario.healthy) (ExitError 4))
          scenario.clock scenario.sda scenario.cache).1
       ([] ++ (readSMARTctl scenario.flags
                 (scenario.answers (minijson.write scenario.healthy) (ExitError 4))
                 scenario.clock scenario.sda scenario.cache).2)).
Proof.
  eapply steps_step; [by apply step_go|].
  eapply steps_step; [by apply step_skip|].
  eapply steps_step; [apply step_loop_done|].
  eapply steps_step;
    [apply (step_goroutine scenario.flags Waiting 0 [] scenario.sda [] _ _
              (scenario.answers (minijson.write scenario.healthy) (ExitError 4))
              scenario.clock)|].
  eapply steps_step; [apply step_wait|].
  apply steps_refl.
Defined.

(** Witness for X3: the report with the message of severity error. *)
Lemma jsonIsOk_iff_witness :
  (jsonIsOk (gjson.Parse (minijson.write scenario.failed))).1 = false.
Proof.
  apply (proj1 (jsonIsOk_iff (gjson.Parse (minijson.write scenario.failed)))).
  exists (gjson.Parse (minijson.write scenario.failure)).
  split; [|reflexivity]. apply list_elem_of_In. left. reflexivity.
Defined.

(** Witness for X4: the report with status code 4 is admitted and
    stored. *)
Lemma admitted_iff_witness :
  let os := scenario.answers (minijson.write scenario.healthy) (ExitError 4) in
  admitted scenario.flags os scenario.sda = true
  ∧ (readSMARTctl scenario.flags os scenario.clock scenario.sda scenario.cache).1
    = <[KDevice scenario.sda
        := mkJSONCache (gjson.Parse (minijson.write scenario.healthy)) 122]>
        scenario.cache.
Proof.
  intros os.
  destruct (admitted_iff scenario.flags os scenario.clock scenario.sda scenario.cache)
    as (_ & Hstore & _).
  split; [reflexivity|]. apply Hstore. reflexivity.
Defined.

(** Witness for X6: the same report with exit status 4 and with no
    error. *)
Lemma readSMARTctl_ignores_exit_code_witness :
  (readSMARTctl scenario.flags
     (scenario.answers (minijson.write scenario.healthy) (ExitError 4))
     scenario.clock scenario.sda scenario.cache).1
  = (readSMARTctl scenario.flags
       (scenario.answers (minijson.write scenario.healthy) nil_error)
       scenario.clock scenario.sda scenario.cache).1.
Proof.
  apply (readSMARTctl_ignores_exit_code scenario.flags
           (scenario.answers (minijson.write scenario.healthy) (ExitError 4))
           (scenario.answers (minijson.write scenario.healthy) nil_error)).
  reflexivity.
Defined.

(** Witness for X7: [sda] and [sdb]. *)
Lemma readSMARTctl_commute_witness :
  let os := scenario.answers (minijson.write scenario.healthy) (ExitError 4) in
  scenario.sda ≠ scenario.sdb
  ∧ (readSMARTctl scenario.flags os scenario.clock scenario.sdb
       (readSMARTctl scenario.flags os scenario.clock scenario.sda scenario.cache).1).1
    = (readSMARTctl scenario.flags os scenario.clock scenario.sda
         (readSMARTctl scenario.flags os scenario.clock scenario.sdb scenario.cache).1).1.
Proof.
  intros os.
  assert (scenario.sda ≠ scenario.sdb) as Hne by discriminate.
  split; [exact Hne|].
  exact (readSMARTctl_commute scenario.flags os scenario.clock scenario.sda
           os scenario.clock scenario.sdb scenario.cache Hne).
Defined.

(** Witness for X8: a failed launch, then an admitted report. *)
Lemma readSMARTctl_last_write_wins_witness :
  let os1 := scenario.answers EmptyString (OtherError "not found") in
  let os2 := scenario.answers (minijson.write scenario.healthy) (ExitError 4) in
  admitted scenario.flags os2 scenario.sda = true
  ∧ (readSMARTctl scenario.flags os2 scenario.clock scenario.sda
       (readSMARTctl scenario.flags os1 scenario.clock scenario.sda scenario.cache).1).1
      !! KDevice scenario.sda
    = Some (mkJSONCache (gjson.Parse (minijson.write scenario.healthy)) 122).
Proof.
  intros os1 os2.
  assert (admitted scenario.flags os2 scenario.sda = true) as Hadm by reflexivity.
  split; [exact Hadm|].
  exact (proj2 (readSMARTctl_last_write_wins scenario.flags os1 scenario.clock
                  os2 scenario.clock scenario.sda scenario.cache Hadm)).
Defined.

(** Witness for X9: stored at 122 with interval 60, the entry is fresh at
    182 and stale at 183. *)
Lemma readSMARTctl_fresh_witness :
  let os := scenario.answers (minijson.write scenario.healthy) (ExitError 4) in
  let after := (readSMARTctl scenario.flags os scenario.clock scenario.sda
                  scenario.cache).1 in
  admitted scenario.flags os scenario.sda = true
  ∧ stale scenario.flags after scenario.sda 183 = true
  ∧ stale scenario.flags after scenario.sda 122 = false.
Proof.
  intros os after.
  assert (admitted scenario.flags os scenario.sda = true) as Hadm by reflexivity.
  split; [exact Hadm|]. split.
  - apply (proj1 (readSMARTctl_fresh scenario.flags os scenario.clock scenario.sda
                    scenario.cache 183 Hadm)). reflexivity.
  - apply (proj2 (readSMARTctl_fresh scenario.flags os scenario.clock scenario.sda
                    scenario.cache 122 Hadm)). discriminate.
Defined.

(** Witness for X10: after the collection of [sda], [readData] returns
    its report. *)
Lemma readData_after_readSMARTctl_witness :
  let os := scenario.answers (minijson.write scenario.healthy) (ExitError 4) in
  smartctlFakeData scenario.flags = false
  ∧ readData scenario.flags os scenario.sda
      (readSMARTctl scenario.flags os scenario.clock scenario.sda scenario.cache).1
    = (gjson.Parse (minijson.write scenario.healthy), []).
Proof.
  intros os. split; [reflexivity|].
  exact (proj1 (readData_after_readSMARTctl scenario.flags os scenario.clock scenario.sda
                  scenario.cache os scenario.sdb eq_refl)).
Defined.

(** Witness for X12: the device [/dev/sda] reads [debug/sda.json]. *)
Lemma readFakeSMARTctl_file_witness :
  string_elem "/" "sda" = false
  ∧ (readFakeSMARTctl (scenario.answers EmptyString nil_error) scenario.sda).2
    = [mkLog LevelDebug "Read fake S.M.A.R.T. data from json"
         [("filename", AString "debug/sda.json")];
       mkLog LevelError "Fake S.M.A.R.T. data reading error"
         [("err", AErr (OtherError "no such file"))]].
Proof.
  assert (string_elem "/" "sda" = false) as Hbase by reflexivity.
  split; [exact Hbase|].
  rewrite (readFakeSMARTctl_file (scenario.answers EmptyString nil_error) scenario.sda
             "/dev" "sda" Hbase (or_intror eq_refl)).
  reflexivity.
Defined.

(** Witness for X13: the result of a text that is not JSON exists. *)
Lemma parsed_results_exist_witness :
  gjson.Exists (parseJSON "Smartctl open device: /dev/sda failed") = true.
Proof.
  exact (proj1 (proj2 (parsed_results_exist scenario.flags
                         (scenario.answers EmptyString nil_error) scenario.sda
                         scenario.cache "Smartctl open device: /dev/sda failed"))).
Defined.

(** Witness for X16: exit status 1 gives the zero result. *)
Lemma readSMARTctlDevices_zero_iff_witness :
  gjson.Exists
    (readSMARTctlDevices scenario.flags
       (scenario.answers (minijson.write scenario.scanned) (ExitError 1))).1 = false.
Proof.
  apply (proj1 (readSMARTctlDevices_zero_iff scenario.flags
                  (scenario.answers (minijson.write scenario.scanned) (ExitError 1)))).
  split; discriminate.
Defined.

(** Witness for X17: the entry of [sdb] is still there after the run. *)
Lemma refreshAllDevices_keeps_entries_witness :
  is_Some (scenario.cache !! KDevice scenario.sdb)
  ∧ is_Some
      ((readSMARTctl scenario.flags
          (scenario.answers (minijson.write scenario.healthy) (ExitError 4))
          scenario.clock scenario.sda scenario.cache).1 !! KDevice scenario.sdb).
Proof.
  assert (is_Some (scenario.cache !! KDevice scenario.sdb)) as Hsome
    by (exists scenario.entry; apply lookup_insert_eq).
  split; [exact Hsome|].
  exact (refreshAllDevices_keeps_entries _ _ _ _ _ (KDevice scenario.sdb)
           scenario_run Hsome).
Defined.

(** Witness for X19: the run starts no collection for [sdb] and leaves
    its entry alone. *)
Lemma refreshAllDevices_touches_started_only_witness :
  (readSMARTctl scenario.flags
     (scenario.answers (minijson.write scenario.healthy) (ExitError 4))
     scenario.clock scenario.sda scenario.cache).1 !! KDevice scenario.sdb
  = scenario.cache !! KDevice scenario.sdb.
Proof.
  apply (proj1 (refreshAllDevices_touches_started_only _ _ _ _ _ scenario_run)
           scenario.sdb).
  cbn. intros [= Hsame]%list_elem_of_singleton.
Defined.

(** Witness for X20: the run of the scenario. *)
Lemma refreshAllDevices_wait_group_witness :
  started [Checked scenario.sda 130 true; Checked scenario.sdb 130 false; LoopDone;
           Collected scenario.sda; WaitDone]
  ≡ₚ finished [Checked scenario.sda 130 true; Checked scenario.sdb 130 false; LoopDone;
               Collected scenario.sda; WaitDone] ++ [].
Proof.
  exact (proj1 (proj2 (refreshAllDevices_wait_group _ _ _ _ _ scenario_run))).
Defined.

(** Witness for X18: the run for no device. *)
Lemma refreshAllDevices_no_devices_witness :
  smartctlFakeData scenario.flags = false
  ∧ steps scenario.flags (refreshAllDevices scenario.flags [] scenario.cache)
      [LoopDone; WaitDone] (mkRun Returned 0 [] scenario.cache [])
  ∧ [LoopDone; WaitDone] = [LoopDone; WaitDone]
    ∧ mkRun Returned 0 [] scenario.cache [] = mkRun Returned 0 [] scenario.cache [].
Proof.
  assert (steps scenario.flags (refreshAllDevices scenario.flags [] scenario.cache)
            [LoopDone; WaitDone] (mkRun Returned 0 [] scenario.cache [])) as Hsteps.
  { eapply steps_step; [apply step_loop_done|].
    eapply steps_step; [apply step_wait|].
    apply steps_refl. }
  split; [reflexivity|]. split; [exact Hsteps|].
  exact (refreshAllDevices_no_devices scenario.flags scenario.cache _ _
           eq_refl Hsteps eq_refl).
Defined.
(** Witness for X22: in the run of the scenario the entry of [sda] is
    the report its collection was answered, stored at 122. *)
Lemma refreshAllDevices_isolation_witness :
  let os := scenario.answers (minijson.write scenario.healthy) (ExitError 4) in
  smartctlFakeData scenario.flags = false
  ∧ NoDup [scenario.sda; scenario.sdb]
  ∧ (readSMARTctl scenario.flags os scenario.clock scenario.sda scenario.cache).1
      !! KDevice scenario.sda
    = Some (mkJSONCache (gjson.Parse (minijson.write scenario.healthy)) 122).
Proof.
  intros os.
  assert (NoDup [scenario.sda; scenario.sdb]) as Hnodup.
  { apply NoDup_cons. split; [|apply NoDup_singleton].
    intros [= Hsame]%list_elem_of_singleton. }
  assert (answered scenario.flags
            (refreshAllDevices scenario.flags [scenario.sda; scenario.sdb] scenario.cache)
            [Checked scenario.sda 130 true; Checked scenario.sdb 130 false; LoopDone;
             Collected scenario.sda; WaitDone]
            [(scenario.sda, os, scenario.clock)]
            (mkRun Returned 0 []
               (readSMARTctl scenario.flags os scenario.clock scenario.sda
                  scenario.cache).1
               ([] ++ (readSMARTctl scenario.flags os scenario.clock scenario.sda
                         scenario.cache).2))) as Hrun.
  { eapply answered_other; [by apply step_go|done|].
    eapply answered_other; [by apply step_skip|done|].
    eapply answered_other; [apply step_loop_done|done|].
    apply (answered_collected scenario.flags Waiting 0 [] scenario.sda [] _ _
             os scenario.clock).
    eapply answered_other; [apply step_wait|done|].
    apply answered_refl. }
  split; [reflexivity|]. split; [exact Hnodup|].
  destruct (refreshAllDevices_isolation scenario.flags _ scenario.cache eq_refl Hnodup)
    as [_ Hall].
  destruct (Hall _ _ _ Hrun) as (_ & _ & _ & Hentry).
  destruct (Hentry scenario.sda os scenario.clock) as [_ Heq]; [by left|].
  exact Heq.
Defined.
End MoreScenario.
